(** * Crop disease detection demo: a shallow embedding of [project3.py]

    The program is a small Flask application.  Its logic is
    - [allowed_file]: the extension check on a client-supplied file name,
    - [analyze_image]: mean channel intensities mapped to a class id by
      fixed thresholds, with random fall-backs,
    - [predict_disease]: the class id dressed up with random confidences
      and two random alternatives,
    - [upload_file]: the request handler that validates, stores and
      predicts.

    Effects are modelled by a state-and-exception monad over a [world]:
    the upload directory, the random generator, the wall clock, standard
    output and the flashed messages.

    Confidences are Python floats (binary64), each represented by the
    rational it denotes: a decimal literal is rounded to the nearest
    float, and every addition, subtraction and multiplication of
    [random.uniform] rounds its exact result to nearest, ties to even.
    Python's [random.random()] returns a multiple of 2^-53 in [0,1),
    which is what [random_random] returns here.  Channel means are
    exact rationals, compared with integer thresholds. *)

From Stdlib Require Import QArith Qround Qpower Lqa.
From stdpp Require Import base tactics option list gmap strings.
From Stdlib Require Import String Ascii.

Local Open Scope string_scope.
Local Open Scope list_scope.

(** * Part I: the program *)

(** ** Data *)

(** One pixel of an image converted to RGB; channels are unsigned bytes. *)
Record pixel := Pixel { red : N; green : N; blue : N }.

(** [np.array(img)]: rows of pixels (height x width x 3). *)
Definition image := list (list pixel).

(** [datetime.now()]: a naive local date and time. *)
Record datetime := DateTime {
  year : nat; month : nat; day : nat;
  hour : nat; minute : nat; second : nat; microsecond : nat
}.

(** Everything the program reads or changes besides its arguments. *)
Record world := World {
  files : gmap string string;      (* path of a stored file -> its bytes *)
  fs_writable : bool;              (* whether writing to the disk succeeds *)
  tape : nat -> N;                 (* raw output of the random generator *)
  cursor : nat;                    (* how many raw values were consumed *)
  clock : nat -> datetime;         (* successive readings of the wall clock *)
  ticks : nat;                     (* how many readings were taken *)
  stdout : list string;            (* lines printed so far *)
  flashes : list (string * string) (* flashed (message, category) pairs *)
}.

(** ** Exceptions and state *)

Inductive outcome (A : Type) : Type :=
| Ok (a : A)
| Raise (e : string).
Arguments Ok {A} a.
Arguments Raise {A} e.

Definition M (A : Type) : Type := world -> outcome A * world.

Definition ret {A} (a : A) : M A := fun w => (Ok a, w).

Definition raise {A} (e : string) : M A := fun w => (Raise e, w).

Definition bind {A B} (m : M A) (k : A -> M B) : M B :=
  fun w => match m w with
           | (Ok a, w') => k a w'
           | (Raise e, w') => (Raise e, w')
           end.

(** [try: m  except Exception as e: h e].  The state reached when the
    exception was raised is kept: nothing is rolled back. *)
Definition try_except {A} (m : M A) (h : string -> M A) : M A :=
  fun w => match m w with
           | (Ok a, w') => (Ok a, w')
           | (Raise e, w') => h e w'
           end.

Notation "'let!' x ':=' c1 'in' c2" := (bind c1 (fun x => c2))
  (at level 10, x name, c1 at level 100, c2 at level 200).

(** [for i in range(n): s = body s] *)
Fixpoint for_range {S} (n : nat) (body : S -> M S) (s : S) : M S :=
  match n with
  | O => ret s
  | Datatypes.S n' => let! s' := body s in for_range n' body s'
  end.

Definition print (line : string) : M unit :=
  fun w => (Ok tt, World (files w) (fs_writable w) (tape w) (cursor w)
                         (clock w) (ticks w) (stdout w ++ [line]) (flashes w)).

Definition flash (message category : string) : M unit :=
  fun w => (Ok tt, World (files w) (fs_writable w) (tape w) (cursor w)
                         (clock w) (ticks w) (stdout w)
                         (flashes w ++ [(message, category)])).

Definition datetime_now : M datetime :=
  fun w => (Ok (clock w (ticks w)),
            World (files w) (fs_writable w) (tape w) (cursor w)
                  (clock w) (Datatypes.S (ticks w)) (stdout w) (flashes w)).

(** ** Floats *)

(** A float is represented by the rational it denotes.  [round64 x] is
    the float nearest to [x], ties to even, with 53 significant bits.
    The exponent range is not bounded: every value the program computes
    is 0 or lies between 2^-55 and 1, far from overflow and from the
    subnormal range. *)
Definition pow2 (e : Z) : Q := Qpower 2 e.

(** The exponent [e] with [2^e <= x < 2^(e+1)], for [x > 0]. *)
Definition binade (x : Q) : Z :=
  let e0 := (Z.log2 (Qnum x) - Z.log2 (Zpos (Qden x)))%Z in
  if Qle_bool (pow2 e0) x then e0 else (e0 - 1)%Z.

(** The integer nearest to [q], ties to even. *)
Definition rne (q : Q) : Z :=
  let f := Qfloor q in
  match (q - inject_Z f ?= 1 # 2)%Q with
  | Lt => f
  | Gt => (f + 1)%Z
  | Eq => if Z.even f then f else (f + 1)%Z
  end.

Definition round_pos (x : Q) : Q :=
  let e := binade x in
  Qred (inject_Z (rne (x * pow2 (52 - e))) * pow2 (e - 52)).

Definition round64 (x : Q) : Q :=
  match (x ?= 0)%Q with
  | Eq => 0%Q
  | Gt => round_pos x
  | Lt => (- round_pos (- x))%Q
  end.

(** The float a decimal literal of the source denotes. *)
Definition f64 (literal : Q) : Q := round64 literal.

(** [x + y], [x - y] and [x * y] on floats. *)
Definition fadd (x y : Q) : Q := round64 (x + y).
Definition fsub (x y : Q) : Q := round64 (x - y).
Definition fmul (x y : Q) : Q := round64 (x * y).

(** ** The [random] module *)

(** The next raw value of the generator. *)
Definition next_raw : M N :=
  fun w => (Ok (tape w (cursor w)),
            World (files w) (fs_writable w) (tape w) (Datatypes.S (cursor w))
                  (clock w) (ticks w) (stdout w) (flashes w)).

(** [random._randbelow(n)] for [n > 0]: an index in [0, n). *)
Definition randbelow (n : nat) : M nat :=
  let! r := next_raw in ret (N.to_nat r mod n).

(** [random.random()]: k / 2^53 for a 53-bit k. *)
Definition two53 : positive := 9007199254740992%positive.

Definition unit_fraction (r : N) : Q :=
  Qmake (Z.of_N (r mod Npos two53)) two53.

Definition random_random : M Q :=
  let! r := next_raw in ret (unit_fraction r).

(** [random.uniform(a, b)] is [a + (b - a) * self.random()], each
    operation on floats. *)
Definition uniform_value (a b u : Q) : Q := fadd a (fmul (fsub b a) u).

Definition random_uniform (a b : Q) : M Q :=
  let! u := random_random in ret (uniform_value a b u).

(** [random.choice(seq)] is [seq[self._randbelow(len(seq))]] and raises
    IndexError on an empty sequence. *)
Definition random_choice {A} (seq : list A) : M A :=
  match seq with
  | [] => raise "Cannot choose from an empty sequence"
  | x :: _ => let! i := randbelow (List.length seq) in ret (List.nth i seq x)
  end.

(** [random.randint(a, b)] is [a + self._randbelow(b - a + 1)]. *)
Definition random_randint (a b : nat) : M nat :=
  let! i := randbelow (b - a + 1) in ret (a + i).

(** ** Module constants *)

Definition ALLOWED_EXTENSIONS : list string :=
  ["png"; "jpg"; "jpeg"; "gif"; "bmp"].

Definition DISEASE_CLASSES : list (nat * string) :=
  [ (0, "Healthy"); (1, "Early Blight"); (2, "Late Blight");
    (3, "Powdery Mildew"); (4, "Leaf Spot"); (5, "Rust");
    (6, "Mosaic Virus"); (7, "Bacterial Spot") ].

Definition CROP_TYPES : list string :=
  ["Tomato"; "Potato"; "Corn"; "Wheat"; "Rice"; "Soybean"].

Definition UPLOAD_FOLDER : string := "static/uploads/".


(** [d.keys()] and [d[k]] (KeyError when the key is absent). *)
Definition dict_keys {V} (d : list (nat * V)) : list nat := map fst d.

Fixpoint dict_lookup {V} (d : list (nat * V)) (k : nat) : option V :=
  match d with
  | [] => None
  | (k', v) :: d' => if Nat.eqb k' k then Some v else dict_lookup d' k
  end.

Definition dict_get {V} (d : list (nat * V)) (k : nat) : M V :=
  match dict_lookup d k with
  | Some v => ret v
  | None => raise "KeyError"
  end.

(** ** [allowed_file] *)

(** [c.lower()] on the bytes of a name: only ASCII capitals change.  (No
    other character lowercases to a letter of an allowed extension.) *)
Definition lower_ascii (c : ascii) : ascii :=
  let n := nat_of_ascii c in
  if Nat.leb 65 n && Nat.leb n 90 then ascii_of_nat (n + 32) else c.

Fixpoint lower (s : string) : string :=
  match s with
  | EmptyString => EmptyString
  | String c s' => String (lower_ascii c) (lower s')
  end.

(** ['.' in s] *)
Fixpoint contains_dot (s : string) : bool :=
  match s with
  | EmptyString => false
  | String c s' => Ascii.eqb c "." || contains_dot s'
  end.

(** The parts of [s] before and after its last dot, if it has one. *)
Fixpoint split_last_dot (s : string) : option (string * string) :=
  match s with
  | EmptyString => None
  | String c s' =>
      match split_last_dot s' with
      | Some (stem, ext) => Some (String c stem, ext)
      | None => if Ascii.eqb c "." then Some (EmptyString, s') else None
      end
  end.

(** [s.rsplit('.', 1)] *)
Definition rsplit_dot (s : string) : list string :=
  match split_last_dot s with
  | Some (stem, ext) => [stem; ext]
  | None => [s]
  end.

Definition allowed_file (filename : string) : bool :=
  contains_dot filename &&
  match rsplit_dot filename !! 1%nat with
  | Some ext => existsb (String.eqb (lower ext)) ALLOWED_EXTENSIONS
  | None => false (* IndexError; not reached when the name has a dot *)
  end.

(** ** Numeric helpers of the analyzer *)

(** A float that may be [nan]: [np.mean] of an empty array is [nan], and
    every comparison with [nan] is false. *)
Definition float := option Q.

Definition float_gt (x : float) (t : Q) : bool :=
  match x with
  | Some q => match (q ?= t)%Q with Gt => true | _ => false end
  | None => false
  end.

Definition float_lt (x : float) (t : Q) : bool :=
  match x with
  | Some q => match (q ?= t)%Q with Lt => true | _ => false end
  | None => false
  end.

(** [img_array[:,:,c]] flattened: one channel of every pixel. *)
Definition channel (c : pixel -> N) (img_array : image) : list N :=
  map c (List.concat img_array).

Definition sumN (xs : list N) : N := fold_right N.add 0%N xs.

(** [np.mean]: the sum over the number of entries. *)
Definition np_mean (xs : list N) : float :=
  match xs with
  | [] => None
  | _ :: _ => Some (inject_Z (Z.of_N (sumN xs))
                    / inject_Z (Z.of_nat (List.length xs)))%Q
  end.

(** ** Prediction records *)

Record prediction := Prediction {
  disease : string;
  confidence : Q;
  class_id : nat
}.

(** The dictionary returned by [predict_disease], by its ['success'] key. *)
Inductive prediction_result :=
| Success (primary_prediction : prediction) (all_predictions : list prediction)
| Failure (error : string).

Definition success (r : prediction_result) : bool :=
  match r with
  | Success _ _ => true
  | Failure _ => false
  end.

(** The alternatives are the entries after the primary one. *)
Definition alternatives (r : prediction_result) : list prediction :=
  match r with
  | Success _ all => tail all
  | Failure _ => []
  end.

(** ** Requests and responses *)

Inductive http_method := GET | POST.

(** An uploaded part: the client's file name and the bytes. *)
Record file_storage := FileStorage { filename : string; content : string }.

Record request := Request {
  method : http_method;
  request_files : gmap string file_storage;   (* [request.files] *)
  url : string
}.



(** The [result_data] dictionary handed to the result template. *)
Record result_data := ResultData {
  r_image_path : string;
  r_prediction : prediction;
  r_all_predictions : list prediction;
  r_timestamp : string;
  r_crop_type : string
}.

Inductive response :=
| Redirect (location : string)
| RenderTemplate (template : string) (result : option result_data).

(** ** Time stamps and paths *)

Definition digit (n : nat) : ascii := ascii_of_nat (48 + n mod 10).

Definition pad2 (n : nat) : string :=
  String (digit (n / 10)) (String (digit n) EmptyString).

Definition pad4 (n : nat) : string :=
  String (digit (n / 1000)) (String (digit (n / 100)) (pad2 n)).

(** [t.strftime('%Y%m%d_%H%M%S')] *)
Definition strftime_stamp (t : datetime) : string :=
  pad4 (year t) ++ pad2 (month t) ++ pad2 (day t) ++ "_"
  ++ pad2 (hour t) ++ pad2 (minute t) ++ pad2 (second t).

(** [t.strftime('%Y-%m-%d %H:%M:%S')] *)
Definition strftime_display (t : datetime) : string :=
  pad4 (year t) ++ "-" ++ pad2 (month t) ++ "-" ++ pad2 (day t) ++ " "
  ++ pad2 (hour t) ++ ":" ++ pad2 (minute t) ++ ":" ++ pad2 (second t).

Fixpoint ends_with_slash (s : string) : bool :=
  match s with
  | EmptyString => false
  | String c EmptyString => Ascii.eqb c "/"
  | String _ s' => ends_with_slash s'
  end.

(** [os.path.join(a, b)] on POSIX. *)
Definition os_path_join (a b : string) : string :=
  match b with
  | String c _ =>
      if Ascii.eqb c "/" then b
      else if String.eqb a "" || ends_with_slash a then a ++ b
      else a ++ "/" ++ b
  | EmptyString =>
      if String.eqb a "" || ends_with_slash a then a else a ++ "/"
  end.

(** [os.makedirs(path, exist_ok=True)]: fails on a disk that cannot be
    written; directories themselves are not tracked. *)
Definition os_makedirs (path : string) : M unit :=
  fun w => if fs_writable w then (Ok tt, w)
           else (Raise "Permission denied", w).

(** [file.save(filepath)]: creates or overwrites the file at [filepath]. *)
Definition file_save (file : file_storage) (filepath : string) : M unit :=
  fun w => if fs_writable w
           then (Ok tt, World (<[filepath := content file]> (files w))
                              (fs_writable w) (tape w) (cursor w)
                              (clock w) (ticks w) (stdout w) (flashes w))
           else (Raise "Permission denied", w).

(** ** The analyzer, the prediction stage and the upload handler *)

Section Program.

(** The image decoder ([Image.open] followed by [convert('RGB')]) is an
    external library: it maps the bytes of a file to an RGB array or
    raises. *)
Variable image_decode : string -> outcome image.

(** werkzeug's [secure_filename], also external. *)
Variable secure_filename : string -> string.

(** Opening a path reads the file from the upload directory. *)
Definition image_open (image_path : string) : M image :=
  fun w => match files w !! image_path with
           | None => (Raise "No such file or directory", w)
           | Some bytes =>
               match image_decode bytes with
               | Ok img => (Ok img, w)
               | Raise e => (Raise e, w)
               end
           end.

Definition analyze_image (image_path : string) : M nat :=
  try_except
    (let! img_array := image_open image_path in
     let avg_red := np_mean (channel red img_array) in
     let avg_green := np_mean (channel green img_array) in
     let avg_blue := np_mean (channel blue img_array) in
     if float_gt avg_green 150 && float_lt avg_red 100 then ret 0
     else if float_gt avg_red 150 && float_lt avg_green 100 then ret 1
     else if float_lt avg_blue 50 && float_gt avg_red 180 then ret 2
     else random_choice [0; 3; 4; 5; 6; 7])
    (fun e =>
       let! _ := print ("Image analysis error: " ++ e) in
       random_randint 0 (List.length DISEASE_CLASSES - 1)).

(** [[x for x in DISEASE_CLASSES.keys() if x != predicted_class]] *)
Definition other_classes (predicted_class : nat) : list nat :=
  filter (fun x => x <> predicted_class) (dict_keys DISEASE_CLASSES).

(** The body of the loop that appends one alternative prediction. *)
Definition add_alternative (other_classes : list nat) (confidence : Q)
    (top_predictions : list prediction) : M (list prediction) :=
  let! alt_class := random_choice other_classes in
  let! alt_name := dict_get DISEASE_CLASSES alt_class in
  let! alt_conf :=
    random_uniform (f64 (1 # 10)) (fsub confidence (f64 (2 # 10))) in
  ret (top_predictions ++ [Prediction alt_name alt_conf alt_class]).

(** The body of the [try] block of [predict_disease]. *)
Definition predict_disease_try (image_path : string) : M prediction_result :=
  (* time.sleep(1): only real time passes *)
  let! predicted_class := analyze_image image_path in
  let! confidence := random_uniform (f64 (7 # 10)) (f64 (95 # 100)) in
  let! name := dict_get DISEASE_CLASSES predicted_class in
  let top_predictions := [Prediction name confidence predicted_class] in
  let other_classes := other_classes predicted_class in
  let! top_predictions :=
    for_range (Nat.min 2 (List.length other_classes))
      (add_alternative other_classes confidence) top_predictions in
  match top_predictions with
  | primary :: _ => ret (Success primary top_predictions)
  | [] => raise "list index out of range"
  end.

Definition predict_disease (image_path : string) : M prediction_result :=
  try_except
    (predict_disease_try image_path)
    (fun e =>
       let! _ := print ("Prediction error: " ++ e) in
       ret (Failure e)).

(** [redirect(request.url)] after [flash(message, 'error')]. *)
Definition flash_error_and_redirect (request : request) (message : string)
    : M response :=
  let! _ := flash message "error" in
  ret (Redirect (url request)).

(** The [try] block of [upload_file]: store the file, then predict. *)
Definition store_and_predict (request : request) (file : file_storage)
    : M response :=
  let filename := secure_filename (filename file) in
  let! now := datetime_now in
  let timestamp := strftime_stamp now in
  let unique_filename := (timestamp ++ "_" ++ filename)%string in
  let filepath := os_path_join UPLOAD_FOLDER unique_filename in
  let! _ := os_makedirs UPLOAD_FOLDER in
  let! _ := file_save file filepath in
  let! _ := print ("‚úÖ Image saved: " ++ unique_filename) in
  let! prediction_result := predict_disease filepath in
  match prediction_result with
  | Success primary all =>
      let! now' := datetime_now in
      let! crop_type := random_choice CROP_TYPES in
      let result_data :=
        ResultData ("/static/uploads/" ++ unique_filename) primary all
                   (strftime_display now') crop_type in
      let! _ := flash "Analysis completed successfully!" "success" in
      ret (RenderTemplate "result.html" (Some result_data))
  | Failure _ =>
      flash_error_and_redirect request
        "Analysis failed. Please try another image."
  end.

(** [bool(file)]: a [FileStorage] is true when its file name is not
    empty. *)
Definition file_truthy (file : file_storage) : bool :=
  negb (String.eqb (filename file) "").

Definition upload_file (request : request) : M response :=
  match method request with
  | POST =>
      match request_files request !! "file" with
      | None =>
          flash_error_and_redirect request "Please select a file first"
      | Some file =>
          if String.eqb (filename file) "" then
            flash_error_and_redirect request "Please select a file"
          else if file_truthy file && allowed_file (filename file) then
            try_except
              (store_and_predict request file)
              (fun e =>
                 flash_error_and_redirect request
                   ("Error processing file: " ++ e))
          else
            flash_error_and_redirect request
              "Invalid file type. Please use JPG, PNG, or JPEG images."
      end
  | GET => ret (RenderTemplate "upload.html" None)
  end.





(** The path under which [upload_file] stores a file named [original]
    when the clock reads [now]. *)
Definition stored_path (now : datetime) (original : string) : string :=
  os_path_join UPLOAD_FOLDER
    (strftime_stamp now ++ "_" ++ secure_filename original).

End Program.

(** * Part II: notions used in the statements *)

(** The world after one raw value of the generator was consumed. *)
Definition advance (w : world) : world :=
  World (files w) (fs_writable w) (tape w) (Datatypes.S (cursor w))
        (clock w) (ticks w) (stdout w) (flashes w).

(** The world after [flash(message, category)]. *)
Definition flashed (message category : string) (w : world) : world :=
  World (files w) (fs_writable w) (tape w) (cursor w)
        (clock w) (ticks w) (stdout w) (flashes w ++ [(message, category)]).

(** The index [_randbelow n] returns in world [w]. *)
Definition drawn_index (n : nat) (w : world) : nat :=
  N.to_nat (tape w (cursor w)) mod n.

(** The fraction [random()] returns in world [w]. *)
Definition drawn_fraction (w : world) : Q :=
  unit_fraction (tape w (cursor w)).

(** [w'] differs from [w] at most by random values consumed and lines
    printed: what the analyzer and the prediction stage may do. *)
Definition draws_and_prints (w w' : world) : Prop :=
  files w' = files w /\ fs_writable w' = fs_writable w /\
  tape w' = tape w /\ cursor w <= cursor w' /\
  clock w' = clock w /\ ticks w' = ticks w /\
  flashes w' = flashes w.

(** [x > t] and [x < t] on floats, as propositions: false on [nan]. *)
Definition above (x : float) (t : Q) : Prop :=
  exists q, x = Some q /\ (t < q)%Q.

Definition below (x : float) (t : Q) : Prop :=
  exists q, x = Some q /\ (q < t)%Q.

(** The classes the fourth rule of the analyzer draws from. *)
Definition fallback_classes : list nat := [0; 3; 4; 5; 6; 7].

(** A rational is a float when rounding leaves it unchanged. *)
Definition is_float (y : Q) : Prop := (round64 y == y)%Q.

(** The float constants of the prediction stage. *)
Definition c07 : Q := f64 (7 # 10).
Definition c095 : Q := f64 (95 # 100).
Definition c01 : Q := f64 (1 # 10).
Definition c02 : Q := f64 (2 # 10).

(** [0.7 - 0.2] on floats: 0.49999999999999994, the float just below
    one half. *)
Definition bmin : Q := fsub c07 c02.

(** The interval [predict_disease] hands to [random.uniform] for the
    alternatives of a primary prediction of confidence [conf]: the
    arguments [0.1] and [confidence - 0.2] of that call. *)
Definition alternative_interval (conf : Q) : Q * Q :=
  (f64 (1 # 10), fsub conf (f64 (2 # 10))).

(** What the loop of [predict_disease] guarantees about each alternative
    it appends. *)
Definition alt_ok (others : list nat) (conf : Q) (a : prediction) : Prop :=
  class_id a ∈ others /\
  dict_lookup DISEASE_CLASSES (class_id a) = Some (disease a) /\
  exists u : Q, (0 <= u)%Q /\ (u < 1)%Q /\
    confidence a
    = uniform_value (fst (alternative_interval conf))
                    (snd (alternative_interval conf)) u.

(** A world with no stored file whose generator always yields 0. *)
Definition constant_world : world :=
  World ∅ true (fun _ => 0%N) 0 (fun _ => DateTime 2024 1 1 0 0 0 0) 0 [] [].

(** What [predict_disease] returns in [constant_world], where no file
    can be opened whatever the decoder is. *)
Definition constant_world_run : outcome prediction_result * world :=
  Eval vm_compute in
    predict_disease (fun _ => Raise "unreadable") "leaf.png" constant_world.

(** The largest raw value: [random()] returns 1 - 2^-53 for it. *)
Definition top_raw : N := 9007199254740991.

(** A world with no stored file in which the draw of the primary
    confidence is the largest one; every other draw is 0.  (The analyzer
    takes the first raw value, the primary confidence the second.) *)
Definition top_world : world :=
  World ∅ true (fun i => if Nat.eqb i 1 then top_raw else 0%N) 0
        (fun _ => DateTime 2024 1 1 0 0 0 0) 0 [] [].

Definition top_world_run : outcome prediction_result * world :=
  Eval vm_compute in
    predict_disease (fun _ => Raise "unreadable") "leaf.png" top_world.

(** A world with no stored file in which the primary confidence comes
    out as 0.75 and the confidences of both alternatives are drawn with
    the largest raw value. *)
Definition tie_world : world :=
  World ∅ true
        (fun i => if Nat.eqb i 1 then 1801439850948198%N
                  else if Nat.odd i then top_raw else 0%N) 0
        (fun _ => DateTime 2024 1 1 0 0 0 0) 0 [] [].

Definition tie_world_run : outcome prediction_result * world :=
  Eval vm_compute in
    predict_disease (fun _ => Raise "unreadable") "leaf.png" tie_world.

(** The file-name rule in the words of the specification: the name is
    not empty, contains a dot, and what follows its last dot is, in
    lower case, one of the allowed extensions. *)
Definition has_dot (s : string) : Prop :=
  exists a b : string, s = (a ++ String "." b)%string.

Definition after_last_dot (s ext : string) : Prop :=
  (exists stem : string, s = (stem ++ String "." ext)%string) /\ ~ has_dot ext.

Definition spec_valid_filename (name : string) : Prop :=
  name <> "" /\ has_dot name /\
  exists ext, after_last_dot name ext /\ In (lower ext) ALLOWED_EXTENSIONS.

(** The conjunction of tests under which [upload_file] enters its [try]
    block for an uploaded part. *)
Definition passes_validation (file : file_storage) : bool :=
  negb (String.eqb (filename file) "")
  && (file_truthy file && allowed_file (filename file)).

(** Two clock readings within the same second. *)
Definition same_second (t1 t2 : datetime) : Prop :=
  year t1 = year t2 /\ month t1 = month t2 /\ day t1 = day t2 /\
  hour t1 = hour t2 /\ minute t1 = minute t2 /\ second t1 = second t2.
(** The ranges Python's [datetime] keeps its fields in, for the years
    that [%Y] prints with four digits. *)
Definition valid_datetime (t : datetime) : Prop :=
  1000 <= year t < 10 * 1000 /\ 1 <= month t <= 12 /\ 1 <= day t <= 31 /\
  hour t < 24 /\ minute t < 60 /\ second t < 60 /\
  microsecond t < 1000 * 1000.

(** ** Sample inputs *)

(** A decoder that reads the bytes ["green"] as one green pixel and
    rejects everything else. *)
Definition sample_decode (bytes : string) : outcome image :=
  if String.eqb bytes "green" then Ok [[Pixel 50 200 80]]
  else Raise "cannot identify image file".

(** A decoder that reads every file as one reddish pixel. *)
Definition red_decode (bytes : string) : outcome image :=
  Ok [[Pixel 200 50 80]].

(** A sanitizer that keeps names that are already safe. *)
Definition keep_filename (name : string) : string := name.

(** A clock whose readings all fall within one second. *)
Definition sample_clock (i : nat) : datetime :=
  DateTime 2024 1 1 12 0 0 (1000 * i).

Definition sample_world : world :=
  World (<["static/uploads/leaf.png" := "green"]> ∅) true
        (fun i => N.of_nat (7 * i + 3)) 0 sample_clock 0 [] [].

(** The same world on a disk that cannot be written. *)
Definition readonly_world : world :=
  World (<["static/uploads/leaf.png" := "green"]> ∅) false
        (fun i => N.of_nat (7 * i + 3)) 0 sample_clock 0 [] [].

(** A clock that advances by one second per reading, and a world that
    uses it. *)
Definition ticking_clock (i : nat) : datetime := DateTime 2024 1 1 12 0 i 0.

Definition ticking_world : world :=
  World ∅ true (fun i => N.of_nat (7 * i + 3)) 0 ticking_clock 0 [] [].

Definition sample_request (name bytes : string) : request :=
  Request POST (<["file" := FileStorage name bytes]> ∅)
          "http://localhost:5000/upload".

Definition empty_request : request :=
  Request POST ∅ "http://localhost:5000/upload".

(** * Part III: properties *)

(** ** Running monadic code *)

Lemma bind_Ok {A B} (m : M A) (k : A -> M B) w a w1 :
  m w = (Ok a, w1) -> bind m k w = k a w1.
Proof. intros H. unfold bind. now rewrite H. Qed.

Lemma bind_Raise {A B} (m : M A) (k : A -> M B) w e w1 :
  m w = (Raise e, w1) -> bind m k w = (Raise e, w1).
Proof. intros H. unfold bind. now rewrite H. Qed.

Lemma try_except_Ok {A} (m : M A) h w a w1 :
  m w = (Ok a, w1) -> try_except m h w = (Ok a, w1).
Proof. intros H. unfold try_except. now rewrite H. Qed.

Lemma try_except_Raise {A} (m : M A) h w e w1 :
  m w = (Raise e, w1) -> try_except m h w = h e w1.
Proof. intros H. unfold try_except. now rewrite H. Qed.

Lemma bind_print {B} (line : string) (k : unit -> M B) w :
  bind (print line) k w = k tt (snd (print line w)).
Proof. reflexivity. Qed.

Lemma bind_flash {B} (message category : string) (k : unit -> M B) w :
  bind (flash message category) k w = k tt (flashed message category w).
Proof. reflexivity. Qed.

Lemma bind_datetime_now {B} (k : datetime -> M B) w :
  bind datetime_now k w = k (clock w (ticks w)) (snd (datetime_now w)).
Proof. reflexivity. Qed.

(** ** Worlds that differ by draws and printed lines *)

Lemma draws_and_prints_refl w : draws_and_prints w w.
Proof. unfold draws_and_prints. repeat split; lia. Qed.

Lemma draws_and_prints_trans w1 w2 w3 :
  draws_and_prints w1 w2 -> draws_and_prints w2 w3 -> draws_and_prints w1 w3.
Proof.
  unfold draws_and_prints.
  intros (F1 & W1 & T1 & C1 & K1 & I1 & L1) (F2 & W2 & T2 & C2 & K2 & I2 & L2).
  repeat split; try congruence. lia.
Qed.

Lemma draws_and_prints_advance w : draws_and_prints w (advance w).
Proof. unfold draws_and_prints, advance; simpl. repeat split; lia. Qed.

Lemma draws_and_prints_print line w :
  draws_and_prints w (snd (print line w)).
Proof. unfold draws_and_prints, print; simpl. repeat split; lia. Qed.

(** ** Floats *)

(** Comparisons of closed float expressions are settled by evaluation. *)
Ltac by_computation := apply Qle_bool_iff; vm_compute; reflexivity.

Section FloatFacts.

Local Open Scope Q_scope.

(** Powers of two *)
Lemma pow2_pos e : 0 < pow2 e.
Proof. apply Qpower_0_lt. reflexivity. Qed.

Lemma pow2_add a b : pow2 (a + b) == pow2 a * pow2 b.
Proof. apply Qpower_plus. discriminate. Qed.

Lemma pow2_le a b : (a <= b)%Z -> pow2 a <= pow2 b.
Proof. intros H. apply Qpower_le_compat_l; [exact H | discriminate]. Qed.

Lemma pow2_lt a b : (a < b)%Z -> pow2 a < pow2 b.
Proof. intros H. apply Qpower_lt_compat_l; [exact H | reflexivity]. Qed.

Lemma pow2_lt_inv a b : pow2 a < pow2 b -> (a < b)%Z.
Proof. intros H. apply (Qpower_lt_compat_l_inv 2); [exact H | reflexivity]. Qed.

Lemma pow2_Z n : (0 <= n)%Z -> pow2 n == inject_Z (2 ^ n).
Proof. intros H. unfold pow2. now rewrite Zpower_Qpower. Qed.

Lemma pow2_cancel a b : pow2 a * pow2 (b - a) == pow2 b.
Proof. rewrite <- pow2_add. now replace (a + (b - a))%Z with b by ring. Qed.

(** The binade of a positive rational *)
Lemma binade_spec x : 0 < x -> pow2 (binade x) <= x /\ x < pow2 (binade x + 1).
Proof.
  intros Hx. destruct x as [n d]. unfold binade. cbn [Qnum Qden].
  assert (Hn : (0 < n)%Z).
  { unfold Qlt in Hx. simpl in Hx. lia. }
  set (a := Z.log2 n). set (b := Z.log2 (Z.pos d)).
  destruct (Z.log2_spec n Hn) as [Ha1 Ha2]. fold a in Ha1, Ha2.
  destruct (Z.log2_spec (Z.pos d) ltac:(lia)) as [Hb1 Hb2]. fold b in Hb1, Hb2.
  assert (Ha0 : (0 <= a)%Z) by apply Z.log2_nonneg.
  assert (Hb0 : (0 <= b)%Z) by apply Z.log2_nonneg.
  assert (Hd : 0 < inject_Z (Z.pos d)) by reflexivity.
  assert (Hx' : n # d == inject_Z n / inject_Z (Z.pos d)) by apply Qmake_Qdiv.
  (* x < 2^(a-b+1) *)
  assert (Hup : n # d < pow2 (a - b + 1)).
  { rewrite Hx'. apply Qlt_shift_div_r; [exact Hd|].
    apply Qlt_le_trans with (inject_Z (2 ^ Z.succ a)).
    - rewrite <- Zlt_Qlt. exact Ha2.
    - rewrite <- (pow2_Z (Z.succ a)) by lia.
      rewrite <- (pow2_cancel (a - b + 1) (Z.succ a)).
      apply Qmult_le_l; [apply pow2_pos|].
      replace (Z.succ a - (a - b + 1))%Z with b by lia.
      rewrite (pow2_Z b) by lia. rewrite <- Zle_Qle. exact Hb1. }
  (* 2^(a-b-1) <= x *)
  assert (Hlow : pow2 (a - b - 1) <= n # d).
  { rewrite Hx'. apply Qle_shift_div_l; [exact Hd|].
    apply Qle_trans with (inject_Z (2 ^ a)).
    - rewrite <- (pow2_Z a) by lia.
      rewrite <- (pow2_cancel (a - b - 1) a).
      apply Qmult_le_l; [apply pow2_pos|].
      replace (a - (a - b - 1))%Z with (Z.succ b) by lia.
      rewrite (pow2_Z (Z.succ b)) by lia. rewrite <- Zle_Qle. lia.
    - rewrite <- Zle_Qle. exact Ha1. }
  destruct (Qle_bool (pow2 (a - b)) (n # d)) eqn:E.
  - apply Qle_bool_iff in E. split; [exact E | exact Hup].
  - split; [exact Hlow|].
    replace (a - b - 1 + 1)%Z with (a - b)%Z by lia.
    apply Qnot_le_lt. intros H. apply Qle_bool_iff in H. congruence.
Qed.

Lemma binade_unique x e : pow2 e <= x -> x < pow2 (e + 1) -> binade x = e.
Proof.
  intros H1 H2.
  assert (Hx : 0 < x) by (eapply Qlt_le_trans; [apply pow2_pos | exact H1]).
  destruct (binade_spec x Hx) as [B1 B2].
  assert (e < binade x + 1)%Z
    by (apply pow2_lt_inv; eapply Qle_lt_trans; eassumption).
  assert (binade x < e + 1)%Z
    by (apply pow2_lt_inv; eapply Qle_lt_trans; eassumption).
  lia.
Qed.

(** Round half to even *)
Lemma rne_cases q :
  let f := Qfloor q in
  (rne q = f /\ q - inject_Z f <= 1 # 2) \/
  (rne q = (f + 1)%Z /\ 1 # 2 <= q - inject_Z f).
Proof.
  intros f. unfold rne. fold f.
  destruct (Qcompare_spec (q - inject_Z f) (1 # 2)) as [E|L|G].
  - destruct (Z.even f); [left | right]; split; try reflexivity;
      rewrite E; apply Qle_refl.
  - left. split; [reflexivity | now apply Qlt_le_weak].
  - right. split; [reflexivity | now apply Qlt_le_weak].
Qed.

Lemma floor_bounds q : inject_Z (Qfloor q) <= q /\ q < inject_Z (Qfloor q) + 1.
Proof.
  split; [apply Qfloor_le|].
  pose proof (Qlt_floor q) as H. now rewrite inject_Z_plus in H.
Qed.

Lemma rne_error q :
  inject_Z (rne q) - (1 # 2) <= q /\ q <= inject_Z (rne q) + (1 # 2).
Proof.
  destruct (floor_bounds q) as [F1 F2].
  destruct (rne_cases q) as [[-> H] | [-> H]].
  - split; lra.
  - rewrite inject_Z_plus. change (inject_Z 1) with 1. split; lra.
Qed.

Lemma rne_nearest q z :
  inject_Z z - (1 # 2) < q -> q < inject_Z z + (1 # 2) -> rne q = z.
Proof.
  intros H1 H2. destruct (rne_error q) as [E1 E2].
  assert (L1 : inject_Z (rne q) < inject_Z (z + 1)).
  { rewrite inject_Z_plus. change (inject_Z 1) with 1. lra. }
  assert (L2 : inject_Z z < inject_Z (rne q + 1)).
  { rewrite inject_Z_plus. change (inject_Z 1) with 1. lra. }
  rewrite <- Zlt_Qlt in L1, L2. lia.
Qed.

Lemma rne_Z z : rne (inject_Z z) = z.
Proof. apply rne_nearest; lra. Qed.

Lemma rne_mono q1 q2 : q1 <= q2 -> (rne q1 <= rne q2)%Z.
Proof.
  intros H. pose proof (Qfloor_resp_le _ _ H) as Hf.
  unfold rne.
  destruct (Z.eq_dec (Qfloor q1) (Qfloor q2)) as [E|N].
  - rewrite <- E. set (f := Qfloor q1).
    destruct (Qcompare_spec (q1 - inject_Z f) (1 # 2)) as [E1|L1|G1];
      destruct (Qcompare_spec (q2 - inject_Z f) (1 # 2)) as [E2|L2|G2];
      try lia; try (exfalso; lra);
      destruct (Z.even f); lia.
  - assert (Hlt : (Qfloor q1 + 1 <= Qfloor q2)%Z) by lia.
    destruct (q1 - inject_Z (Qfloor q1) ?= 1 # 2);
      destruct (q2 - inject_Z (Qfloor q2) ?= 1 # 2);
      try destruct (Z.even (Qfloor q1)); try destruct (Z.even (Qfloor q2));
      lia.
Qed.

Lemma rne_comp q1 q2 : q1 == q2 -> rne q1 = rne q2.
Proof.
  intros E. apply Z.le_antisymm; apply rne_mono; rewrite E; apply Qle_refl.
Qed.

(** Rounding to 53 bits *)
Lemma round64_0 x : x == 0 -> round64 x = 0.
Proof.
  intros E. unfold round64.
  now rewrite (proj1 (Qeq_alt x 0) E).
Qed.

Lemma round64_pos_eq x :
  0 < x ->
  round64 x
  == inject_Z (rne (x * pow2 (52 - binade x))) * pow2 (binade x - 52).
Proof.
  intros Hx. unfold round64.
  rewrite (proj1 (Qgt_alt x 0) Hx). unfold round_pos. apply Qred_correct.
Qed.

Lemma scaled_bounds x e :
  pow2 e <= x -> x < pow2 (e + 1) ->
  inject_Z (2 ^ 52) <= x * pow2 (52 - e) /\
  x * pow2 (52 - e) < inject_Z (2 ^ 53).
Proof.
  intros H1 H2. pose proof (pow2_pos (52 - e)) as Hp. split.
  - rewrite <- (pow2_Z 52) by lia. rewrite <- (pow2_cancel e 52).
    now apply Qmult_le_r.
  - rewrite <- (pow2_Z 53) by lia. rewrite <- (pow2_cancel (e + 1) 53).
    replace (53 - (e + 1))%Z with (52 - e)%Z by lia.
    now apply Qmult_lt_r.
Qed.

Lemma round64_in_binade x e :
  pow2 e <= x -> x < pow2 (e + 1) ->
  let z := rne (x * pow2 (52 - e)) in
  (2 ^ 52 <= z <= 2 ^ 53)%Z /\ round64 x == inject_Z z * pow2 (e - 52).
Proof.
  intros H1 H2 z.
  assert (Hx : 0 < x) by (eapply Qlt_le_trans; [apply pow2_pos | exact H1]).
  destruct (scaled_bounds x e H1 H2) as [S1 S2].
  split.
  - split.
    + rewrite <- (rne_Z (2 ^ 52)). now apply rne_mono.
    + rewrite <- (rne_Z (2 ^ 53)). apply rne_mono. now apply Qlt_le_weak.
  - rewrite (round64_pos_eq x Hx). now rewrite (binade_unique x e H1 H2).
Qed.

Lemma grid_bounds z e :
  (2 ^ 52 <= z <= 2 ^ 53)%Z ->
  pow2 e <= inject_Z z * pow2 (e - 52) /\
  inject_Z z * pow2 (e - 52) <= pow2 (e + 1).
Proof.
  intros [Z1 Z2]. pose proof (pow2_pos (e - 52)) as Hp. split.
  - rewrite <- (pow2_cancel 52 e) at 1. rewrite (pow2_Z 52) by lia.
    apply Qmult_le_r; [exact Hp|]. now rewrite <- Zle_Qle.
  - rewrite <- (pow2_cancel 53 (e + 1)). rewrite (pow2_Z 53) by lia.
    replace (e + 1 - 53)%Z with (e - 52)%Z by lia.
    apply Qmult_le_r; [exact Hp|]. now rewrite <- Zle_Qle.
Qed.

Lemma round64_bounds x e :
  pow2 e <= x -> x < pow2 (e + 1) ->
  pow2 e <= round64 x /\ round64 x <= pow2 (e + 1).
Proof.
  intros H1 H2. destruct (round64_in_binade x e H1 H2) as [Hz ->].
  now apply grid_bounds.
Qed.

Lemma round64_grid z e :
  (2 ^ 52 <= z <= 2 ^ 53)%Z ->
  round64 (inject_Z z * pow2 (e - 52)) == inject_Z z * pow2 (e - 52).
Proof.
  intros [Z1 Z2]. destruct (Z.eq_dec z (2 ^ 53)%Z) as [E|N].
  - subst z.
    assert (Hv : inject_Z (2 ^ 53) * pow2 (e - 52) == pow2 (e + 1)).
    { rewrite <- (pow2_Z 53) by lia. rewrite <- pow2_add.
      now replace (53 + (e - 52))%Z with (e + 1)%Z by ring. }
    assert (B1 : pow2 (e + 1) <= inject_Z (2 ^ 53) * pow2 (e - 52))
      by (rewrite Hv; apply Qle_refl).
    assert (B2 : inject_Z (2 ^ 53) * pow2 (e - 52) < pow2 (e + 1 + 1))
      by (rewrite Hv; apply pow2_lt; lia).
    destruct (round64_in_binade _ _ B1 B2) as [_ ->].
    rewrite (rne_comp _ (inject_Z (2 ^ 52))).
    + rewrite rne_Z, Hv. rewrite <- (pow2_Z 52) by lia. rewrite <- pow2_add.
      now replace (52 + (e + 1 - 52))%Z with (e + 1)%Z by ring.
    + rewrite Hv. rewrite <- (pow2_Z 52) by lia. rewrite <- pow2_add.
      now replace (e + 1 + (52 - (e + 1)))%Z with 52%Z by ring.
  - destruct (grid_bounds z e (conj Z1 Z2)) as [B1 B2].
    assert (B3 : inject_Z z * pow2 (e - 52) < pow2 (e + 1)).
    { rewrite <- (pow2_cancel 53 (e + 1)). rewrite (pow2_Z 53) by lia.
      replace (e + 1 - 53)%Z with (e - 52)%Z by lia.
      apply Qmult_lt_r; [apply pow2_pos|]. rewrite <- Zlt_Qlt. lia. }
    destruct (round64_in_binade _ _ B1 B3) as [_ ->].
    rewrite (rne_comp _ (inject_Z z)); [now rewrite rne_Z|].
    rewrite <- Qmult_assoc, <- pow2_add.
    replace (e - 52 + (52 - e))%Z with 0%Z by ring.
    change (pow2 0) with 1. ring.
Qed.

Lemma round64_nonneg x : 0 <= x -> 0 <= round64 x.
Proof.
  intros Hx. destruct (Qeq_dec x 0) as [E|N].
  - rewrite (round64_0 x E). apply Qle_refl.
  - assert (Hp : 0 < x).
    { apply Qle_lteq in Hx as [H|H]; [exact H|]. now symmetry in H. }
    destruct (binade_spec x Hp) as [B1 B2].
    destruct (round64_bounds x _ B1 B2) as [R1 _].
    apply Qlt_le_weak. eapply Qlt_le_trans; [apply pow2_pos | exact R1].
Qed.

Lemma round64_mono x y : 0 <= x -> x <= y -> round64 x <= round64 y.
Proof.
  intros Hx Hxy. destruct (Qeq_dec x 0) as [E|N].
  - rewrite (round64_0 x E). apply round64_nonneg. lra.
  - assert (Px : 0 < x).
    { apply Qle_lteq in Hx as [H|H]; [exact H|]. now symmetry in H. }
    assert (Py : 0 < y) by lra.
    destruct (binade_spec x Px) as [X1 X2].
    destruct (binade_spec y Py) as [Y1 Y2].
    assert (He : (binade x <= binade y)%Z).
    { assert (binade x < binade y + 1)%Z; [|lia].
      apply pow2_lt_inv. lra. }
    destruct (Z.eq_dec (binade x) (binade y)) as [E|N'].
    + destruct (round64_in_binade x _ X1 X2) as [_ ->].
      rewrite <- E in Y1, Y2.
      destruct (round64_in_binade y _ Y1 Y2) as [_ ->].
      apply Qmult_le_r; [apply pow2_pos|]. rewrite <- Zle_Qle.
      apply rne_mono. apply Qmult_le_r; [apply pow2_pos | exact Hxy].
    + destruct (round64_bounds x _ X1 X2) as [_ R2].
      destruct (round64_bounds y _ Y1 Y2) as [R3 _].
      apply Qle_trans with (pow2 (binade x + 1)); [exact R2|].
      apply Qle_trans with (pow2 (binade y)); [|exact R3].
      apply pow2_le. lia.
Qed.

Lemma round64_comp x y : 0 <= x -> x == y -> round64 x == round64 y.
Proof.
  intros Hx E. apply Qle_antisym; apply round64_mono; lra.
Qed.

Lemma round64_is_float x : 0 <= x -> is_float (round64 x).
Proof.
  intros Hx. unfold is_float. destruct (Qeq_dec x 0) as [E|N].
  - rewrite (round64_0 x E). reflexivity.
  - assert (Px : 0 < x).
    { apply Qle_lteq in Hx as [H|H]; [exact H|]. now symmetry in H. }
    destruct (binade_spec x Px) as [X1 X2].
    destruct (round64_in_binade x _ X1 X2) as [Hz Hr].
    rewrite (round64_comp _ _ (round64_nonneg x Hx) Hr). rewrite Hr.
    now apply round64_grid.
Qed.

Lemma float_grid y e :
  is_float y -> pow2 e <= y -> y < pow2 (e + 1) ->
  exists z : Z, (2 ^ 52 <= z < 2 ^ 53)%Z /\ y == inject_Z z * pow2 (e - 52).
Proof.
  intros Hf H1 H2. destruct (round64_in_binade y e H1 H2) as [[Z1 Z2] Hr].
  set (z := rne (y * pow2 (52 - e))) in *.
  unfold is_float in Hf. rewrite Hf in Hr. exists z. split; [|exact Hr]. split; [exact Z1|].
  destruct (Z.eq_dec z (2 ^ 53)%Z) as [E|N]; [|lia]. exfalso.
  rewrite E in Hr.
  assert (Hv : inject_Z (2 ^ 53) * pow2 (e - 52) == pow2 (e + 1)).
  { rewrite <- (pow2_Z 53) by lia. rewrite <- pow2_add.
    now replace (53 + (e - 52))%Z with (e + 1)%Z by ring. }
  rewrite Hv in Hr. rewrite Hr in H2. now apply Qlt_irrefl in H2.
Qed.

(** The constants of the prediction stage *)

Lemma pow2_m53 : pow2 (-53) == 1 # 9007199254740992.
Proof. reflexivity. Qed.
Lemma pow2_m54 : pow2 (-54) == 1 # 18014398509481984.
Proof. reflexivity. Qed.
Lemma pow2_m1 : pow2 (-1) == 1 # 2.
Proof. reflexivity. Qed.
Lemma pow2_m2 : pow2 (-2) == 1 # 4.
Proof. reflexivity. Qed.
Lemma pow2_0 : pow2 0 == 1.
Proof. reflexivity. Qed.
Lemma pow2_53 : pow2 53 == 9007199254740992 # 1.
Proof. reflexivity. Qed.
Lemma pow2_54 : pow2 54 == 18014398509481984 # 1.
Proof. reflexivity. Qed.

Lemma c07_val : c07 = 3152519739159347 # 4503599627370496.
Proof. vm_compute. reflexivity. Qed.
Lemma c095_val : c095 = 4278419646001971 # 4503599627370496.
Proof. vm_compute. reflexivity. Qed.
Lemma c01_val : c01 = 3602879701896397 # 36028797018963968.
Proof. vm_compute. reflexivity. Qed.
Lemma c02_val : c02 = 3602879701896397 # 18014398509481984.
Proof. vm_compute. reflexivity. Qed.
Lemma bmin_val : bmin = 9007199254740991 # 18014398509481984.
Proof. vm_compute. reflexivity. Qed.

Lemma uniform_lower a b u :
  0 <= a -> is_float a -> a <= b -> 0 <= u -> a <= uniform_value a b u.
Proof.
  intros Ha Fa Hab Hu. unfold uniform_value, fadd, fmul, fsub.
  assert (Hd : 0 <= round64 (b - a)) by (apply round64_nonneg; lra).
  assert (Hm : 0 <= round64 (round64 (b - a) * u)).
  { apply round64_nonneg. now apply Qmult_le_0_compat. }
  unfold is_float in Fa. rewrite <- Fa at 1.
  apply round64_mono; lra.
Qed.

Lemma uniform_upper a b u :
  0 <= a -> a <= b -> 0 <= u -> u <= 1 ->
  uniform_value a b u <= round64 (a + round64 (b - a)).
Proof.
  intros Ha Hab Hu0 Hu1. unfold uniform_value, fadd, fmul, fsub.
  set (d := round64 (b - a)).
  assert (Hd : 0 <= d) by (apply round64_nonneg; lra).
  assert (Fd : is_float d) by (apply round64_is_float; lra).
  assert (Hdu : 0 <= d * u) by now apply Qmult_le_0_compat.
  assert (Hle : d * u <= d) by nra.
  assert (Hm0 : 0 <= round64 (d * u)) by now apply round64_nonneg.
  assert (Hm : round64 (d * u) <= d).
  { unfold is_float in Fd. rewrite <- Fd at 2. now apply round64_mono. }
  apply round64_mono; lra.
Qed.

(** The primary confidence *)
Lemma c07_float : is_float c07.
Proof. apply round64_is_float. discriminate. Qed.

Lemma primary_range u :
  0 <= u -> u < 1 ->
  c07 <= uniform_value c07 c095 u /\ uniform_value c07 c095 u <= c095.
Proof.
  intros H0 H1.
  assert (A0 : 0 <= c07) by by_computation.
  assert (AB : c07 <= c095) by by_computation.
  split.
  - apply uniform_lower; [exact A0 | apply c07_float | exact AB | exact H0].
  - eapply Qle_trans; [apply uniform_upper; [exact A0 | exact AB | exact H0 | lra]|].
    by_computation.
Qed.

(** The interval of the alternatives *)
Lemma interval_upper_range conf :
  c07 <= conf -> conf <= c095 ->
  bmin <= fsub conf c02 /\ fsub conf c02 <= 3 # 4 /\ is_float (fsub conf c02).
Proof.
  intros H1 H2. unfold bmin, fsub.
  assert (C : 0 <= c07 - c02) by by_computation.
  split; [apply round64_mono; lra|]. split.
  - apply Qle_trans with (round64 (c095 - c02)); [apply round64_mono; lra|].
    by_computation.
  - apply round64_is_float. lra.
Qed.

Lemma inject_Z_sub (a b : Z) : inject_Z (a - b) == inject_Z a - inject_Z b.
Proof.
  unfold Z.sub. rewrite inject_Z_plus, inject_Z_opp. reflexivity.
Qed.

Lemma inject_Z_ge (n z : Z) : (n <= z)%Z -> inject_Z n <= inject_Z z.
Proof. intros H. now rewrite <- Zle_Qle. Qed.

(** The largest float below one half. *)
Lemma float_below_half b :
  is_float b -> bmin <= b -> b < 1 # 2 -> b == bmin.
Proof.
  intros Fb H1 H2. rewrite bmin_val in *.
  destruct (float_grid b (-2) Fb) as (z & [Z1 Z2] & Hb).
  - rewrite pow2_m2. lra.
  - change (-2 + 1)%Z with (-1)%Z. rewrite pow2_m1. exact H2.
  - change (-2 - 52)%Z with (-54)%Z in Hb. rewrite pow2_m54 in Hb.
    assert (Hz : inject_Z 9007199254740991 <= inject_Z z).
    { change (inject_Z 9007199254740991) with (9007199254740991 # 1). lra. }
    rewrite <- Zle_Qle in Hz.
    assert (E : z = 9007199254740991%Z) by lia.
    rewrite Hb, E. reflexivity.
Qed.

Lemma alternative_upper_key b :
  is_float b -> bmin <= b -> b <= 3 # 4 ->
  round64 (c01 + round64 (b - c01)) <= b.
Proof.
  intros Fb H1 H2.
  assert (Hc : c01 == 3602879701896397 # 36028797018963968)
    by (rewrite c01_val; reflexivity).
  assert (Hbm : bmin == 9007199254740991 # 18014398509481984)
    by (rewrite bmin_val; reflexivity).
  destruct (Qlt_le_dec b (1 # 2)) as [Hlt | Hge].
  - (* b is the float just below 1/2 *)
    pose proof (float_below_half b Fb H1 Hlt) as E.
    assert (E1 : round64 (b - c01) == round64 (bmin - c01))
      by (apply round64_comp; lra).
    assert (N1 : 0 <= round64 (b - c01)) by (apply round64_nonneg; lra).
    assert (E2 : round64 (c01 + round64 (b - c01))
                 == round64 (c01 + round64 (bmin - c01)))
      by (apply round64_comp; lra).
    rewrite E2, E. by_computation.
  - (* b = z * 2^-53 *)
    destruct (float_grid b (-1) Fb) as (z & [Z1 Z2] & Hb).
    { rewrite pow2_m1. exact Hge. }
    { change (-1 + 1)%Z with 0%Z. rewrite pow2_0. lra. }
    change (-1 - 52)%Z with (-53)%Z in Hb. rewrite pow2_m53 in Hb.
    assert (Hz1 : 4503599627370496 # 1 <= inject_Z z)
      by (apply (inject_Z_ge 4503599627370496); lia).
    assert (Hz2 : inject_Z z <= 9007199254740991 # 1)
      by (apply (inject_Z_ge z 9007199254740991); lia).
    set (t := (inject_Z z + (1 # 4)) * (1 # 9007199254740992)).
    assert (Ht : c01 + round64 (b - c01) <= t).
    { destruct (Qlt_le_dec (b - c01) (1 # 2)) as [Dlt | Dge].
      - assert (B1 : pow2 (-2) <= b - c01) by (rewrite pow2_m2; lra).
        assert (B2 : b - c01 < pow2 (-2 + 1))
          by (change (-2 + 1)%Z with (-1)%Z; rewrite pow2_m1; exact Dlt).
        destruct (round64_in_binade _ _ B1 B2) as [_ Hr].
        change (52 - -2)%Z with 54%Z in Hr.
        change (-2 - 52)%Z with (-54)%Z in Hr.
        set (q := (b - c01) * pow2 54) in *.
        assert (Hq : q == (b - c01) * (18014398509481984 # 1))
          by (unfold q; now rewrite pow2_54).
        destruct (rne_error q) as [El _].
        rewrite pow2_m54 in Hr. unfold t. lra.
      - assert (B1 : pow2 (-1) <= b - c01) by (rewrite pow2_m1; lra).
        assert (B2 : b - c01 < pow2 (-1 + 1))
          by (change (-1 + 1)%Z with 0%Z; rewrite pow2_0; lra).
        destruct (round64_in_binade _ _ B1 B2) as [_ Hr].
        change (52 - -1)%Z with 53%Z in Hr.
        change (-1 - 52)%Z with (-53)%Z in Hr.
        set (q := (b - c01) * pow2 53) in *.
        assert (Hq : q == (b - c01) * (9007199254740992 # 1))
          by (unfold q; now rewrite pow2_53).
        assert (En : rne q = (z - 900719925474099)%Z).
        { apply rne_nearest; rewrite inject_Z_sub;
            change (inject_Z 900719925474099) with (900719925474099 # 1);
            lra. }
        rewrite En, inject_Z_sub, pow2_m53 in Hr.
        change (inject_Z 900719925474099) with (900719925474099 # 1) in Hr.
        unfold t. lra. }
    assert (T1 : pow2 (-1) <= t) by (rewrite pow2_m1; unfold t; lra).
    assert (T2 : t < pow2 (-1 + 1))
      by (change (-1 + 1)%Z with 0%Z; rewrite pow2_0; unfold t; lra).
    destruct (round64_in_binade _ _ T1 T2) as [_ Hrt].
    change (52 - -1)%Z with 53%Z in Hrt.
    change (-1 - 52)%Z with (-53)%Z in Hrt.
    assert (Eq' : t * pow2 53 == inject_Z z + (1 # 4))
      by (rewrite pow2_53; unfold t; field).
    assert (En : rne (t * pow2 53) = z) by (apply rne_nearest; lra).
    rewrite En, pow2_m53 in Hrt.
    assert (N : 0 <= c01 + round64 (b - c01)).
    { assert (0 <= round64 (b - c01)) by (apply round64_nonneg; lra). lra. }
    apply Qle_trans with (round64 t); [now apply round64_mono|].
    rewrite Hrt, Hb. apply Qle_refl.
Qed.

Lemma c01_float : is_float c01.
Proof. apply round64_is_float. discriminate. Qed.

(** The upper end of the interval is below the primary confidence. *)
Lemma interval_upper_below conf :
  c07 <= conf -> conf <= c095 -> fsub conf c02 < conf.
Proof.
  intros H1 H2.
  assert (C : 0 <= c07 - c02) by by_computation.
  destruct (Qlt_le_dec (3 # 4) conf) as [Hhi | Hlo].
  - destruct (interval_upper_range conf H1 H2) as (_ & B & _). lra.
  - apply Qle_lt_trans with (round64 ((3 # 4) - c02)).
    + unfold fsub. apply round64_mono; lra.
    + apply Qlt_le_trans with c07; [|exact H1].
      apply Qlt_alt. vm_compute. reflexivity.
Qed.

Lemma alternative_range conf u :
  c07 <= conf -> conf <= c095 -> 0 <= u -> u < 1 ->
  c01 <= uniform_value c01 (fsub conf c02) u /\
  uniform_value c01 (fsub conf c02) u <= fsub conf c02 /\
  uniform_value c01 (fsub conf c02) u < conf.
Proof.
  intros H1 H2 U0 U1.
  destruct (interval_upper_range conf H1 H2) as (B1 & B2 & Fb).
  pose proof (interval_upper_below conf H1 H2) as B3.
  assert (A0 : 0 <= c01) by by_computation.
  assert (AB : c01 <= bmin) by by_computation.
  assert (Hup : uniform_value c01 (fsub conf c02) u <= fsub conf c02).
  { eapply Qle_trans; [apply uniform_upper; lra|].
    now apply alternative_upper_key. }
  split; [apply uniform_lower; [exact A0 | apply c01_float | lra | exact U0]|].
  split; [exact Hup | lra].
Qed.

Lemma interval_nonempty conf :
  c07 <= conf -> conf <= c095 ->
  c01 < fsub conf c02 /\ 9007199254740991 # 18014398509481984 <= fsub conf c02.
Proof.
  intros H1 H2. destruct (interval_upper_range conf H1 H2) as (B1 & _ & _).
  assert (AB : c01 < bmin) by (apply Qlt_alt; vm_compute; reflexivity).
  rewrite bmin_val in *. split; lra.
Qed.

End FloatFacts.

(** ** The random generator *)

Lemma randbelow_run n w : randbelow n w = (Ok (drawn_index n w), advance w).
Proof. reflexivity. Qed.

Lemma drawn_index_lt n w : 0 < n -> drawn_index n w < n.
Proof. intros Hn. unfold drawn_index. apply Nat.mod_upper_bound. lia. Qed.

Lemma random_uniform_run a b w :
  random_uniform a b w
  = (Ok (uniform_value a b (drawn_fraction w)), advance w).
Proof. reflexivity. Qed.

Lemma unit_fraction_range r : (0 <= unit_fraction r)%Q /\ (unit_fraction r < 1)%Q.
Proof.
  assert (H : (r mod N.pos two53 < N.pos two53)%N)
    by (apply N.mod_lt; discriminate).
  unfold unit_fraction, Qle, Qlt.
  cbn [Qnum Qden]. rewrite !Z.mul_1_r, Z.mul_0_l.
  apply N2Z.inj_lt in H.
  change (Z.of_N (N.pos two53)) with (Z.pos two53) in H.
  split; [apply N2Z.is_nonneg | exact H].
Qed.

Lemma random_choice_run {A} (x : A) (seq : list A) w :
  random_choice (x :: seq) w
  = (Ok (List.nth (drawn_index (List.length (x :: seq)) w) (x :: seq) x),
     advance w).
Proof. reflexivity. Qed.

Lemma random_randint_run a b w :
  random_randint a b w = (Ok (a + drawn_index (b - a + 1) w), advance w).
Proof. reflexivity. Qed.

(** ** Comparisons of means *)

Lemma float_gt_above x t : float_gt x t = true <-> above x t.
Proof.
  unfold float_gt, above. destruct x as [q|].
  - split.
    + intros H. exists q. split; [reflexivity|].
      apply Qgt_alt. destruct (q ?= t)%Q; congruence.
    + intros (q' & E & H). inversion E; subst q'.
      destruct (Qgt_alt q t) as [F _]. now rewrite (F H).
  - split; [discriminate|]. intros (q & E & _). discriminate.
Qed.

Lemma float_lt_below x t : float_lt x t = true <-> below x t.
Proof.
  unfold float_lt, below. destruct x as [q|].
  - split.
    + intros H. exists q. split; [reflexivity|].
      apply Qlt_alt. destruct (q ?= t)%Q; congruence.
    + intros (q' & E & H). inversion E; subst q'.
      destruct (Qlt_alt q t) as [F _]. now rewrite (F H).
  - split; [discriminate|]. intros (q & E & _). discriminate.
Qed.

Lemma andb_rule (x y : float) (s t : Q) :
  float_gt x s && float_lt y t = true <-> above x s /\ below y t.
Proof.
  pose proof (float_gt_above x s). pose proof (float_lt_below y t).
  destruct (float_gt x s), (float_lt y t); simpl; intuition congruence.
Qed.

Lemma andb_rule' (x y : float) (s t : Q) :
  float_lt x s && float_gt y t = true <-> below x s /\ above y t.
Proof.
  pose proof (float_lt_below x s). pose proof (float_gt_above y t).
  destruct (float_lt x s), (float_gt y t); simpl; intuition congruence.
Qed.

(** ** The colour analyzer *)

Section AnalyzerFacts.

Variable image_decode : string -> outcome image.

Lemma image_open_Ok image_path w bytes img :
  files w !! image_path = Some bytes -> image_decode bytes = Ok img ->
  image_open image_decode image_path w = (Ok img, w).
Proof. intros Hf Hd. unfold image_open. now rewrite Hf, Hd. Qed.

(** Opening an image never changes the world. *)
Lemma image_open_world image_path w :
  snd (image_open image_decode image_path w) = w.
Proof.
  unfold image_open. destruct (files w !! image_path) as [bytes|]; [|reflexivity].
  now destruct (image_decode bytes).
Qed.

(** C1: on an image that decodes, the three threshold rules are tried in
    the order green/red, red/green, blue/red and give classes 0, 1 and 2
    without touching the generator; when none applies the class is the
    entry of [0,3,4,5,6,7] at the index the generator draws below 6, and
    since the six entries are distinct a uniform index is a uniform
    class. *)
Theorem analyze_image_rules (image_path : string) (w : world)
    (bytes : string) (img : image) :
  files w !! image_path = Some bytes ->
  image_decode bytes = Ok img ->
  let avg_red := np_mean (channel red img) in
  let avg_green := np_mean (channel green img) in
  let avg_blue := np_mean (channel blue img) in
  let rule1 := above avg_green 150 /\ below avg_red 100 in
  let rule2 := above avg_red 150 /\ below avg_green 100 in
  let rule3 := below avg_blue 50 /\ above avg_red 180 in
  (rule1 -> analyze_image image_decode image_path w = (Ok 0, w)) /\
  (~ rule1 -> rule2 ->
   analyze_image image_decode image_path w = (Ok 1, w)) /\
  (~ rule1 -> ~ rule2 -> rule3 ->
   analyze_image image_decode image_path w = (Ok 2, w)) /\
  (~ rule1 -> ~ rule2 -> ~ rule3 ->
   analyze_image image_decode image_path w
   = (Ok (List.nth (drawn_index 6 w) fallback_classes 0), advance w)
   /\ drawn_index 6 w < 6) /\
  List.NoDup fallback_classes /\ List.length fallback_classes = 6.
Proof.
  intros Hf Hd avg_red avg_green avg_blue rule1 rule2 rule3.
  pose proof (image_open_Ok _ _ _ _ Hf Hd) as Hopen.
  assert (Hrun : analyze_image image_decode image_path w
    = (if float_gt avg_green 150 && float_lt avg_red 100 then (Ok 0, w)
       else if float_gt avg_red 150 && float_lt avg_green 100 then (Ok 1, w)
       else if float_lt avg_blue 50 && float_gt avg_red 180 then (Ok 2, w)
       else (Ok (List.nth (drawn_index 6 w) fallback_classes 0), advance w))).
  { unfold analyze_image, try_except.
    rewrite (bind_Ok _ _ _ _ _ Hopen).
    fold avg_red avg_green avg_blue.
    destruct (float_gt avg_green 150 && float_lt avg_red 100); [reflexivity|].
    destruct (float_gt avg_red 150 && float_lt avg_green 100); [reflexivity|].
    destruct (float_lt avg_blue 50 && float_gt avg_red 180); reflexivity. }
  pose proof (andb_rule avg_green avg_red 150 100) as R1.
  pose proof (andb_rule avg_red avg_green 150 100) as R2.
  pose proof (andb_rule' avg_blue avg_red 50 180) as R3.
  fold rule1 in R1. fold rule2 in R2. fold rule3 in R3.
  assert (Hdistinct : List.NoDup fallback_classes).
  { repeat constructor; simpl; intuition congruence. }
  pose proof (drawn_index_lt 6 w ltac:(lia)) as Hlt.
  rewrite Hrun.
  destruct (float_gt avg_green 150 && float_lt avg_red 100),
           (float_gt avg_red 150 && float_lt avg_green 100),
           (float_lt avg_blue 50 && float_gt avg_red 180);
    intuition (reflexivity || congruence).
Qed.

(** When decoding fails the handler prints the error and draws with
    [randint(0, 7)]. *)
Lemma analyze_image_on_failure image_path w e :
  image_open image_decode image_path w = (Raise e, w) ->
  analyze_image image_decode image_path w
  = (Ok (drawn_index 8 w),
     advance (snd (print ("Image analysis error: " ++ e) w))).
Proof.
  intros Hopen. unfold analyze_image.
  rewrite (try_except_Raise _ _ w e w).
  - reflexivity.
  - now rewrite (bind_Raise _ _ _ _ _ Hopen).
Qed.

(** C3: when opening or decoding the image raises, [analyze_image] still
    returns normally; its result is the index the generator draws below
    8, hence uniform on the eight class ids and a key of
    [DISEASE_CLASSES]. *)
Theorem analyze_image_swallows_errors (image_path : string) (w : world)
    (e : string) :
  fst (image_open image_decode image_path w) = Raise e ->
  exists (c : nat) (w' : world),
    analyze_image image_decode image_path w = (Ok c, w') /\
    c = drawn_index (List.length DISEASE_CLASSES) w /\
    0 <= c <= 7 /\
    c ∈ dict_keys DISEASE_CLASSES.
Proof.
  intros He.
  assert (Hopen : image_open image_decode image_path w = (Raise e, w)).
  { pose proof (image_open_world image_path w) as Hw.
    destruct (image_open image_decode image_path w) as [o w1].
    simpl in He, Hw. now subst. }
  rewrite (analyze_image_on_failure _ _ _ Hopen).
  eexists _, _. split; [reflexivity|]. split; [reflexivity|].
  pose proof (drawn_index_lt 8 w ltac:(lia)) as Hlt.
  split; [lia|].
  remember (drawn_index 8 w) as c eqn:Ec. clear Ec.
  do 8 (destruct c as [|c]; [simpl; set_solver|]). lia.
Qed.

(** [analyze_image] is total: it always returns a key of
    [DISEASE_CLASSES] and leaves the stored files alone. *)
Lemma analyze_image_total image_path w :
  exists (c : nat) (w' : world),
    analyze_image image_decode image_path w = (Ok c, w') /\
    c <= 7 /\ draws_and_prints w w'.
Proof.
  destruct (image_open image_decode image_path w) as [[img|e] w1] eqn:Hopen.
  - pose proof (image_open_world image_path w) as Hw.
    rewrite Hopen in Hw. simpl in Hw. subst w1.
    unfold analyze_image, try_except.
    rewrite (bind_Ok _ _ _ _ _ Hopen).
    pose proof (drawn_index_lt 6 w ltac:(lia)) as Hlt.
    pose proof (draws_and_prints_refl w) as Hrefl.
    destruct (float_gt _ 150 && float_lt _ 100);
      [eexists _, _; split; [reflexivity|]; split; [lia | exact Hrefl]|].
    destruct (float_gt _ 150 && float_lt _ 100);
      [eexists _, _; split; [reflexivity|]; split; [lia | exact Hrefl]|].
    destruct (float_lt _ 50 && float_gt _ 180);
      [eexists _, _; split; [reflexivity|]; split; [lia | exact Hrefl]|].
    exists (List.nth (drawn_index 6 w) fallback_classes 0), (advance w).
    split; [reflexivity|].
    split; [|apply draws_and_prints_advance].
    generalize dependent (drawn_index 6 w). intros k Hk.
    do 6 (destruct k as [|k]; [simpl; lia|]). lia.
  - pose proof (image_open_world image_path w) as Hw.
    rewrite Hopen in Hw. simpl in Hw. subst w1.
    rewrite (analyze_image_on_failure _ _ _ Hopen).
    pose proof (drawn_index_lt 8 w ltac:(lia)) as Hlt.
    eexists _, _. split; [reflexivity|]. split; [simpl; lia|].
    eapply draws_and_prints_trans;
      [apply draws_and_prints_print | apply draws_and_prints_advance].
Qed.

End AnalyzerFacts.

(** ** The prediction stage *)

Lemma dict_lookup_class (c : nat) :
  c <= 7 -> exists name, dict_lookup DISEASE_CLASSES c = Some name.
Proof.
  intros Hc. do 8 (destruct c as [|c]; [eexists; reflexivity|]). lia.
Qed.

Lemma other_classes_spec (p x : nat) :
  x ∈ other_classes p <-> x <> p /\ x <= 7.
Proof.
  unfold other_classes. rewrite list_elem_of_filter. simpl.
  split.
  - intros [Hne Hin]. split; [exact Hne|].
    repeat (apply elem_of_cons in Hin as [->|Hin]; [lia|]).
    now apply elem_of_nil in Hin.
  - intros [Hne Hle]. split; [exact Hne|].
    do 8 (destruct x as [|x]; [set_solver|]). lia.
Qed.

Lemma other_classes_length (p : nat) :
  p <= 7 -> List.length (other_classes p) = 7.
Proof.
  intros Hp. do 8 (destruct p as [|p]; [reflexivity|]). lia.
Qed.

(** The interval of the alternatives is what the loop body hands to
    [random.uniform]. *)
Lemma add_alternative_interval (others : list nat) (conf : Q)
    (top : list prediction) :
  add_alternative others conf top
  = (let! alt_class := random_choice others in
     let! alt_name := dict_get DISEASE_CLASSES alt_class in
     let! alt_conf :=
       random_uniform (fst (alternative_interval conf))
                      (snd (alternative_interval conf)) in
     ret (top ++ [Prediction alt_name alt_conf alt_class])).
Proof. reflexivity. Qed.

Lemma add_alternative_run (others : list nat) (conf : Q)
    (top : list prediction) (w : world) :
  others <> [] -> (forall x, x ∈ others -> x <= 7) ->
  exists a, add_alternative others conf top w
            = (Ok (top ++ [a]), advance (advance w))
            /\ alt_ok others conf a.
Proof.
  intros Hne Hle. destruct others as [|x l]; [congruence|].
  set (alt := List.nth (drawn_index (List.length (x :: l)) w) (x :: l) x).
  assert (Hin : alt ∈ x :: l).
  { apply list_elem_of_In. apply List.nth_In. apply drawn_index_lt. simpl. lia. }
  destruct (dict_lookup_class alt (Hle _ Hin)) as [name Hname].
  exists (Prediction name
            (uniform_value (f64 (1 # 10)) (fsub conf (f64 (2 # 10)))
                           (drawn_fraction (advance w))) alt).
  split.
  - unfold add_alternative.
    rewrite (bind_Ok _ _ _ _ _ (random_choice_run x l w)). fold alt.
    unfold dict_get at 1. rewrite Hname.
    rewrite (bind_Ok _ _ _ name (advance w) eq_refl).
    rewrite (bind_Ok _ _ _ _ _ (random_uniform_run _ _ (advance w))).
    reflexivity.
  - split; [exact Hin|]. split; [exact Hname|].
    destruct (unit_fraction_range (tape (advance w) (cursor (advance w))))
      as [H0 H1].
    exists (drawn_fraction (advance w)). now repeat split.
Qed.

Lemma alternatives_loop (others : list nat) (conf : Q) (n : nat) :
  others <> [] -> (forall x, x ∈ others -> x <= 7) ->
  forall (top : list prediction) (w : world),
  exists alts w',
    for_range n (add_alternative others conf) top w = (Ok (top ++ alts), w')
    /\ List.length alts = n
    /\ Forall (alt_ok others conf) alts
    /\ draws_and_prints w w'.
Proof.
  intros Hne Hle. induction n as [|n IH]; intros top w.
  - exists [], w. rewrite app_nil_r.
    repeat split; [constructor | apply draws_and_prints_refl].
  - destruct (add_alternative_run others conf top w Hne Hle) as (a & Hrun & Ha).
    destruct (IH (top ++ [a]) (advance (advance w)))
      as (alts & w' & Hloop & Hlen & Hall & Hfr).
    exists (a :: alts), w'. split.
    + simpl. rewrite (bind_Ok _ _ _ _ _ Hrun), Hloop.
      now rewrite <- app_assoc.
    + simpl. split; [now rewrite Hlen|]. split; [now constructor|].
      eapply draws_and_prints_trans; [|exact Hfr].
      eapply draws_and_prints_trans; apply draws_and_prints_advance.
Qed.

Section PredictionFacts.

Variable image_decode : string -> outcome image.

(** The [try] block of [predict_disease] never raises; the shape of its
    result. *)
Lemma predict_disease_try_run (image_path : string) (w : world) :
  exists (c : nat) (name : string) (conf : Q) (alts : list prediction)
         (w' : world),
    predict_disease_try image_decode image_path w
    = (Ok (Success (Prediction name conf c) (Prediction name conf c :: alts)),
       w')
    /\ c <= 7
    /\ dict_lookup DISEASE_CLASSES c = Some name
    /\ (exists u : Q, (0 <= u)%Q /\ (u < 1)%Q /\
          conf = uniform_value (f64 (7 # 10)) (f64 (95 # 100)) u)
    /\ List.length alts = Nat.min 2 (List.length (other_classes c))
    /\ Forall (alt_ok (other_classes c) conf) alts
    /\ draws_and_prints w w' /\ cursor w < cursor w'.
Proof.
  destruct (analyze_image_total image_decode image_path w)
    as (c & w1 & Hana & Hc & Hfr1).
  destruct (dict_lookup_class c Hc) as [name Hname].
  set (conf := uniform_value (f64 (7 # 10)) (f64 (95 # 100))
                             (drawn_fraction w1)).
  assert (Hne : other_classes c <> []).
  { intros E. pose proof (other_classes_length c Hc) as L.
    rewrite E in L. discriminate. }
  assert (Hle : forall x, x ∈ other_classes c -> x <= 7)
    by (intros x Hx; now apply other_classes_spec in Hx).
  destruct (alternatives_loop (other_classes c) conf
              (Nat.min 2 (List.length (other_classes c))) Hne Hle
              [Prediction name conf c] (advance w1))
    as (alts & w' & Hloop & Hlen & Hall & Hfr2).
  exists c, name, conf, alts, w'. split.
  - unfold predict_disease_try.
    rewrite (bind_Ok _ _ _ _ _ Hana).
    rewrite (bind_Ok _ _ _ _ _ (random_uniform_run _ _ w1)). fold conf.
    unfold dict_get at 1. rewrite Hname.
    rewrite (bind_Ok _ _ _ name (advance w1) eq_refl).
    cbv zeta. rewrite (bind_Ok _ _ _ _ _ Hloop). reflexivity.
  - split; [exact Hc|]. split; [exact Hname|]. split.
    + destruct (unit_fraction_range (tape w1 (cursor w1))) as [H0 H1].
      exists (drawn_fraction w1). now repeat split.
    + split; [exact Hlen|]. split; [exact Hall|]. split.
      * eapply draws_and_prints_trans; [exact Hfr1|].
        eapply draws_and_prints_trans; [apply draws_and_prints_advance|].
        exact Hfr2.
      * destruct Hfr1 as (_ & _ & _ & C1 & _).
        destruct Hfr2 as (_ & _ & _ & C2 & _). simpl in C2. lia.
Qed.

(** Hence [predict_disease] is its [try] block. *)
Lemma predict_disease_is_try (image_path : string) (w : world) :
  predict_disease image_decode image_path w
  = predict_disease_try image_decode image_path w.
Proof.
  destruct (predict_disease_try_run image_path w)
    as (c & name & conf & alts & w' & Hrun & _).
  unfold predict_disease. rewrite Hrun. now apply try_except_Ok.
Qed.

(** The shape of every result of [predict_disease]. *)
Lemma predict_disease_run (image_path : string) (w : world) :
  exists (c : nat) (name : string) (conf : Q) (alts : list prediction)
         (w' : world),
    predict_disease image_decode image_path w
    = (Ok (Success (Prediction name conf c) (Prediction name conf c :: alts)),
       w')
    /\ c <= 7
    /\ dict_lookup DISEASE_CLASSES c = Some name
    /\ (exists u : Q, (0 <= u)%Q /\ (u < 1)%Q /\
          conf = uniform_value (f64 (7 # 10)) (f64 (95 # 100)) u)
    /\ List.length alts = Nat.min 2 (List.length (other_classes c))
    /\ Forall (alt_ok (other_classes c) conf) alts
    /\ draws_and_prints w w' /\ cursor w < cursor w'.
Proof.
  rewrite predict_disease_is_try. apply predict_disease_try_run.
Qed.

End PredictionFacts.

Section PredictionClaims.

Variable image_decode : string -> outcome image.

(** C2, amended: in every result of [predict_disease] the primary
    confidence lies between the floats 0.70 and 0.95, both ends
    included, and each alternative's confidence is at least the float
    0.10, at most the float [primary - 0.20] (the subtraction as the
    code computes it, on floats), and strictly below the primary
    confidence: confidences are never inverted. *)
Theorem predict_disease_confidences (image_path : string) (w : world) :
  exists (p : prediction) (all : list prediction) (w' : world),
    predict_disease image_decode image_path w = (Ok (Success p all), w') /\
    (f64 (7 # 10) <= confidence p)%Q /\ (confidence p <= f64 (95 # 100))%Q /\
    Forall (fun a => (f64 (1 # 10) <= confidence a)%Q
                     /\ (confidence a
                         <= fsub (confidence p) (f64 (2 # 10)))%Q
                     /\ (confidence a < confidence p)%Q)
           (alternatives (Success p all)).
Proof.
  destruct (predict_disease_run image_decode image_path w)
    as (c & name & conf & alts & w' & Hrun & _ & _ & Hconf & _ & Hall & _).
  exists (Prediction name conf c), (Prediction name conf c :: alts), w'.
  split; [exact Hrun|].
  destruct Hconf as (u & H0 & H1 & ->).
  destruct (primary_range u H0 H1) as [Hlo Hhi].
  cbn [confidence alternatives tail].
  split; [exact Hlo|]. split; [exact Hhi|].
  eapply Forall_impl; [exact Hall|].
  intros a (_ & _ & v & V0 & V1 & Ea). rewrite Ea.
  exact (alternative_range _ v Hlo Hhi V0 V1).
Qed.

(** C5: every result carries at most two alternatives, and no more than
    there are classes other than the primary one. *)
Theorem predict_disease_alternative_count (image_path : string) (w : world) :
  exists (p : prediction) (all : list prediction) (w' : world),
    predict_disease image_decode image_path w = (Ok (Success p all), w') /\
    List.length (alternatives (Success p all)) <= 2 /\
    List.length (alternatives (Success p all))
    <= List.length (other_classes (class_id p)).
Proof.
  destruct (predict_disease_run image_decode image_path w)
    as (c & name & conf & alts & w' & Hrun & _ & _ & _ & Hlen & _).
  exists (Prediction name conf c), (Prediction name conf c :: alts), w'.
  split; [exact Hrun|]. simpl. rewrite Hlen. lia.
Qed.

(** C6: no alternative has the primary's class id, and there are draws
    for which the two alternatives have the same class id. *)
Theorem predict_disease_alternative_classes (image_path : string) :
  (forall w : world,
     exists (p : prediction) (all : list prediction) (w' : world),
       predict_disease image_decode image_path w = (Ok (Success p all), w') /\
       Forall (fun a => class_id a <> class_id p)
              (alternatives (Success p all))) /\
  (exists (w w' : world) (p a1 a2 : prediction),
     predict_disease image_decode image_path w
     = (Ok (Success p [p; a1; a2]), w') /\
     class_id a1 = class_id a2).
Proof.
  split.
  - intros w.
    destruct (predict_disease_run image_decode image_path w)
      as (c & name & conf & alts & w' & Hrun & _ & _ & _ & _ & Hall & _).
    exists (Prediction name conf c), (Prediction name conf c :: alts), w'.
    split; [exact Hrun|]. simpl.
    eapply Forall_impl; [exact Hall|].
    intros a (Hin & _). now apply other_classes_spec in Hin.
  - exists constant_world.
    assert (Hopen : image_open image_decode image_path constant_world
                    = (Raise "No such file or directory", constant_world)).
    { unfold image_open. simpl. now rewrite lookup_empty. }
    assert (Hrun : predict_disease image_decode image_path constant_world
                   = constant_world_run).
    { unfold predict_disease, predict_disease_try, try_except.
      rewrite (bind_Ok _ _ _ _ _ (analyze_image_on_failure _ _ _ _ Hopen)).
      vm_compute. reflexivity. }
    rewrite Hrun. unfold constant_world_run.
    eexists _, _, _, _. split; reflexivity.
Qed.

(** C9: for every path and world the [try] block of [predict_disease]
    finishes without raising, so the [except] branch that would report
    [success = False] never runs, and the result has [success = True]. *)
Theorem predict_disease_succeeds (image_path : string) (w : world) :
  exists (r : prediction_result) (w' : world),
    predict_disease_try image_decode image_path w = (Ok r, w') /\
    predict_disease image_decode image_path w = (Ok r, w') /\
    success r = true.
Proof.
  destruct (predict_disease_try_run image_decode image_path w)
    as (c & name & conf & alts & w' & Hrun & _).
  eexists _, w'. split; [exact Hrun|]. split; [|reflexivity].
  now rewrite predict_disease_is_try.
Qed.

(** C10, amended: in every result of [predict_disease], the interval
    from 0.10 to [primary - 0.20] that the confidences of the
    alternatives are drawn from is not empty: its upper end, computed
    on floats, is strictly above its lower end and at least
    0.49999999999999994 = (2^53 - 1) / 2^54, the float just below one
    half; and each alternative's confidence is a uniform draw from
    that interval. *)
Theorem alternative_interval_nonempty (image_path : string) (w : world) :
  exists (p : prediction) (all : list prediction) (w' : world),
    predict_disease image_decode image_path w = (Ok (Success p all), w') /\
    (fst (alternative_interval (confidence p))
     < snd (alternative_interval (confidence p)))%Q /\
    (9007199254740991 # 18014398509481984
     <= snd (alternative_interval (confidence p)))%Q /\
    Forall (fun a => exists u : Q, (0 <= u)%Q /\ (u < 1)%Q /\
              confidence a
              = uniform_value (fst (alternative_interval (confidence p)))
                              (snd (alternative_interval (confidence p))) u)
           (alternatives (Success p all)).
Proof.
  destruct (predict_disease_run image_decode image_path w)
    as (c & name & conf & alts & w' & Hrun & _ & _ & Hconf & _ & Hall & _).
  exists (Prediction name conf c), (Prediction name conf c :: alts), w'.
  split; [exact Hrun|].
  destruct Hconf as (u & H0 & H1 & ->).
  destruct (primary_range u H0 H1) as [Hlo Hhi].
  destruct (interval_nonempty _ Hlo Hhi) as [Hne Hmin].
  cbn [confidence alternatives tail].
  split; [exact Hne|]. split; [exact Hmin|].
  eapply Forall_impl; [exact Hall|].
  intros a (_ & _ & Ha). exact Ha.
Qed.

End PredictionClaims.

(** ** File names *)

Lemma contains_dot_has_dot (s : string) : contains_dot s = true <-> has_dot s.
Proof.
  unfold has_dot. induction s as [|c s IH]; simpl.
  - split; [discriminate|]. intros (a & b & E). destruct a; discriminate.
  - split.
    + intros H. apply orb_true_iff in H as [H|H].
      * apply Ascii.eqb_eq in H. subst c. now exists EmptyString, s.
      * apply IH in H as (a & b & ->). now exists (String c a), b.
    + intros (a & b & E). apply orb_true_iff. destruct a as [|c' a]; simpl in E.
      * inversion E; subst. left. apply Ascii.eqb_refl.
      * inversion E; subst. right. apply IH. now exists a, b.
Qed.

Lemma contains_dot_false (s : string) : contains_dot s = false <-> ~ has_dot s.
Proof.
  rewrite <- contains_dot_has_dot. destruct (contains_dot s); split;
    congruence.
Qed.

Lemma split_last_dot_None (s : string) :
  split_last_dot s = None <-> contains_dot s = false.
Proof.
  induction s as [|c s IH]; simpl; [tauto|].
  destruct (split_last_dot s) as [[stem ext]|].
  - split; [discriminate|]. intros H. apply orb_false_iff in H as [_ H].
    apply IH in H. discriminate.
  - destruct (Ascii.eqb c "."); simpl; [split; discriminate|].
    split; intros _; [now apply IH | reflexivity].
Qed.

Lemma split_last_dot_Some (s stem ext : string) :
  split_last_dot s = Some (stem, ext) ->
  s = (stem ++ String "." ext)%string /\ contains_dot ext = false.
Proof.
  revert stem. induction s as [|c s IH]; simpl; intros stem H; [discriminate|].
  destruct (split_last_dot s) as [[stem' ext']|] eqn:E.
  - inversion H; subst. destruct (IH stem' eq_refl) as [-> Hext].
    now split.
  - destruct (Ascii.eqb c ".") eqn:Ec; [|discriminate].
    inversion H; subst. apply Ascii.eqb_eq in Ec. subst c.
    split; [reflexivity|]. now apply split_last_dot_None.
Qed.

Lemma split_last_dot_app (stem ext : string) :
  contains_dot ext = false ->
  split_last_dot (stem ++ String "." ext) = Some (stem, ext).
Proof.
  intros Hext. induction stem as [|c stem IH]; simpl.
  - apply split_last_dot_None in Hext. now rewrite Hext.
  - now rewrite IH.
Qed.

Lemma existsb_eqb_In (x : string) (l : list string) :
  existsb (String.eqb x) l = true <-> In x l.
Proof.
  rewrite existsb_exists. split.
  - intros (y & Hy & E). apply String.eqb_eq in E. now subst.
  - intros H. exists x. split; [exact H | apply String.eqb_refl].
Qed.

(** [allowed_file] computes the rule of the specification. *)
Lemma allowed_file_spec (name : string) :
  allowed_file name = true <-> spec_valid_filename name.
Proof.
  unfold allowed_file, rsplit_dot, spec_valid_filename, after_last_dot.
  split.
  - intros H. apply andb_true_iff in H as [Hdot H].
    destruct (split_last_dot name) as [[stem ext]|] eqn:E; simpl in H;
      [|discriminate].
    apply split_last_dot_Some in E as [-> Hext].
    split; [destruct stem; discriminate|].
    split; [now apply contains_dot_has_dot|].
    exists ext. split; [|now apply existsb_eqb_In].
    split; [now exists stem | now apply contains_dot_false].
  - intros (_ & Hdot & ext & [[stem ->] Hext] & Hin).
    apply contains_dot_has_dot in Hdot. rewrite Hdot. simpl.
    apply contains_dot_false in Hext.
    rewrite (split_last_dot_app stem ext Hext).
    change (existsb (String.eqb (lower ext)) ALLOWED_EXTENSIONS = true).
    now apply existsb_eqb_In.
Qed.

Lemma allowed_file_nonempty (name : string) :
  allowed_file name = true -> name <> "".
Proof. intros H. now apply allowed_file_spec in H as [H _]. Qed.

(** ** The upload handler *)

Section HandlerFacts.

Variable image_decode : string -> outcome image.
Variable secure_filename : string -> string.

Lemma flash_error_and_redirect_run request message w :
  flash_error_and_redirect request message w
  = (Ok (Redirect (url request)), flashed message "error" w).
Proof. reflexivity. Qed.

(** On a writable disk the [try] block of the handler stores the bytes
    under the time-stamped name, reads the clock twice and renders the
    result page. *)
Lemma store_and_predict_run request file w :
  fs_writable w = true ->
  exists (data : result_data) (w' : world),
    store_and_predict image_decode secure_filename request file w
    = (Ok (RenderTemplate "result.html" (Some data)), w') /\
    files w'
    = <[stored_path secure_filename (clock w (ticks w)) (filename file)
        := content file]> (files w) /\
    fs_writable w' = true /\ clock w' = clock w /\
    ticks w' = Datatypes.S (Datatypes.S (ticks w)) /\
    cursor w < cursor w'.
Proof.
  intros Hw. unfold store_and_predict, stored_path.
  rewrite bind_datetime_now. cbv zeta.
  remember (strftime_stamp (clock w (ticks w)) ++ "_"
            ++ secure_filename (filename file))%string as unique eqn:Eu.
  remember (os_path_join UPLOAD_FOLDER unique) as path eqn:Ep.
  clear Eu Ep.
  set (w1 := snd (datetime_now w)).
  assert (Hmk : os_makedirs UPLOAD_FOLDER w1 = (Ok tt, w1))
    by (unfold os_makedirs; cbn [fs_writable w1 snd datetime_now];
        destruct (fs_writable w); [reflexivity | discriminate]).
  rewrite (bind_Ok _ _ _ _ _ Hmk).
  set (w2 := World (<[path := content file]> (files w)) (fs_writable w)
                   (tape w) (cursor w) (clock w) (Datatypes.S (ticks w))
                   (stdout w) (flashes w)).
  assert (Hsave : file_save file path w1 = (Ok tt, w2))
    by (unfold file_save, w2; cbn [fs_writable w1 snd datetime_now];
        destruct (fs_writable w); [reflexivity | discriminate]).
  rewrite (bind_Ok _ _ _ _ _ Hsave).
  rewrite bind_print.
  set (w3 := snd (print _ w2)).
  destruct (predict_disease_run image_decode path w3)
    as (c & name & conf & alts & w4 & Hrun & _ & _ & _ & _ & _ & Hfr & Hcur).
  rewrite (bind_Ok _ _ _ _ _ Hrun). cbv beta iota.
  rewrite bind_datetime_now. unfold CROP_TYPES.
  rewrite (bind_Ok _ _ _ _ _ (random_choice_run _ _ _)).
  rewrite bind_flash.
  destruct Hfr as (F & W & T & C & K & I & L).
  eexists _, _. split; [reflexivity|].
  cbn [files fs_writable clock ticks cursor snd flashed advance datetime_now].
  cbn [files fs_writable clock ticks cursor snd print w3 w2]
    in F, W, K, I, C, Hcur.
  split; [exact F|]. split; [now rewrite W|]. split; [exact K|].
  split; [now rewrite I|]. apply Nat.lt_lt_succ_r, Hcur.
Qed.

(** What the handler does with a POST that carries a file part. *)
Lemma upload_file_rejects request file w :
  method request = POST ->
  request_files request !! "file" = Some file ->
  allowed_file (filename file) = false ->
  exists message,
    upload_file image_decode secure_filename request w
    = (Ok (Redirect (url request)), flashed message "error" w).
Proof.
  intros Hm Hf Ha. unfold upload_file. rewrite Hm, Hf.
  destruct (String.eqb (filename file) "");
    [eexists; apply flash_error_and_redirect_run|].
  rewrite Ha, andb_false_r.
  eexists; apply flash_error_and_redirect_run.
Qed.

Lemma upload_file_stores request file w :
  method request = POST ->
  request_files request !! "file" = Some file ->
  allowed_file (filename file) = true ->
  fs_writable w = true ->
  exists (data : result_data) (w' : world),
    upload_file image_decode secure_filename request w
    = (Ok (RenderTemplate "result.html" (Some data)), w') /\
    files w'
    = <[stored_path secure_filename (clock w (ticks w)) (filename file)
        := content file]> (files w) /\
    fs_writable w' = true /\ clock w' = clock w /\
    ticks w' = Datatypes.S (Datatypes.S (ticks w)) /\
    cursor w < cursor w'.
Proof.
  intros Hm Hf Ha Hw. unfold upload_file. rewrite Hm, Hf.
  pose proof (allowed_file_nonempty _ Ha) as Hne.
  apply String.eqb_neq in Hne. unfold file_truthy. rewrite Hne, Ha.
  cbn [negb andb].
  destruct (store_and_predict_run request file w Hw)
    as (data & w' & Hrun & Hrest).
  exists data, w'. split; [|exact Hrest].
  now apply try_except_Ok.
Qed.

End HandlerFacts.

Lemma same_second_stamp (t1 t2 : datetime) :
  same_second t1 t2 -> strftime_stamp t1 = strftime_stamp t2.
Proof.
  destruct t1, t2. unfold same_second, strftime_stamp. simpl.
  intros (-> & -> & -> & -> & -> & ->). reflexivity.
Qed.

Section HandlerClaims.

Variable image_decode : string -> outcome image.
Variable secure_filename : string -> string.

(** C7: an uploaded part passes the handler's validation exactly when
    its file name is not empty, contains a dot, and what follows the
    last dot is, in lower case, one of png, jpg, jpeg, gif, bmp.  A part
    that does not is answered by a redirect with one flashed error and
    the world is otherwise unchanged (no file written); a part that does
    is stored when the disk is writable. *)
Theorem upload_validation (request : request) (file : file_storage)
    (w : world) :
  method request = POST ->
  request_files request !! "file" = Some file ->
  (passes_validation file = true <-> spec_valid_filename (filename file)) /\
  (~ spec_valid_filename (filename file) ->
   exists message,
     upload_file image_decode secure_filename request w
     = (Ok (Redirect (url request)), flashed message "error" w)
     /\ files (flashed message "error" w) = files w) /\
  (spec_valid_filename (filename file) -> fs_writable w = true ->
   exists (data : result_data) (w' : world),
     upload_file image_decode secure_filename request w
     = (Ok (RenderTemplate "result.html" (Some data)), w')
     /\ files w'
        !! stored_path secure_filename (clock w (ticks w)) (filename file)
        = Some (content file)).
Proof.
  intros Hm Hf. split; [|split].
  - rewrite <- allowed_file_spec. unfold passes_validation, file_truthy.
    split.
    + intros H. apply andb_true_iff in H as [_ H].
      now apply andb_true_iff in H as [_ H].
    + intros H. pose proof (allowed_file_nonempty _ H) as Hne.
      apply String.eqb_neq in Hne. now rewrite Hne, H.
  - intros Hinv.
    destruct (upload_file_rejects image_decode secure_filename
                request file w Hm Hf) as [message Hrun].
    + rewrite <- allowed_file_spec in Hinv.
      now destruct (allowed_file (filename file)).
    + exists message. split; [exact Hrun | reflexivity].
  - intros Hval Hw. apply allowed_file_spec in Hval.
    destruct (upload_file_stores image_decode secure_filename
                request file w Hm Hf Hval Hw)
      as (data & w' & Hrun & Hfiles & _).
    exists data, w'. split; [exact Hrun|].
    rewrite Hfiles. apply lookup_insert_eq.
Qed.

(** C8: a POST without a file part, or whose file part has an empty
    name, is answered by a redirect; the only change to the world is one
    flashed error, so nothing is stored, printed or drawn -- and a
    prediction always draws from the generator. *)
Theorem upload_without_file (request : request) (w : world) :
  method request = POST ->
  (request_files request !! "file" = None \/
   exists file, request_files request !! "file" = Some file
                /\ filename file = "") ->
  (exists message,
     upload_file image_decode secure_filename request w
     = (Ok (Redirect (url request)), flashed message "error" w)
     /\ files (flashed message "error" w) = files w
     /\ cursor (flashed message "error" w) = cursor w
     /\ stdout (flashed message "error" w) = stdout w) /\
  (forall (image_path : string) (w0 : world),
     cursor w0 < cursor (snd (predict_disease image_decode image_path w0))).
Proof.
  intros Hm Hcase. split.
  - unfold upload_file. rewrite Hm.
    destruct Hcase as [Hnone | (file & Hsome & Hname)].
    + rewrite Hnone. eexists. split; [apply flash_error_and_redirect_run|].
      now repeat split.
    + rewrite Hsome, Hname. cbn [String.eqb].
      eexists. split; [apply flash_error_and_redirect_run|].
      now repeat split.
  - intros image_path w0.
    destruct (predict_disease_run image_decode image_path w0)
      as (c & name & conf & alts & w' & Hrun & _ & _ & _ & _ & _ & _ & Hcur).
    now rewrite Hrun.
Qed.

(** C4 (what the code does): two uploads of the same file name whose
    [datetime.now()] readings fall in the same second are stored under
    the same path, and the second upload replaces the bytes of the
    first. *)
Theorem repeated_upload_overwrites (request1 request2 : request)
    (file1 file2 : file_storage) (w : world) :
  method request1 = POST -> method request2 = POST ->
  request_files request1 !! "file" = Some file1 ->
  request_files request2 !! "file" = Some file2 ->
  filename file1 = filename file2 ->
  allowed_file (filename file1) = true ->
  fs_writable w = true ->
  same_second (clock w (ticks w)) (clock w (Datatypes.S (Datatypes.S (ticks w)))) ->
  let path :=
    stored_path secure_filename (clock w (ticks w)) (filename file1) in
  let w1 := snd (upload_file image_decode secure_filename request1 w) in
  let w2 := snd (upload_file image_decode secure_filename request2 w1) in
  files w1 !! path = Some (content file1) /\
  files w2 !! path = Some (content file2) /\
  files w2 = <[path := content file2]> (files w).
Proof.
  intros Hm1 Hm2 Hf1 Hf2 Hname Hal Hw Hsec path w1 w2.
  destruct (upload_file_stores image_decode secure_filename
              request1 file1 w Hm1 Hf1 Hal Hw)
    as (d1 & u1 & R1 & F1 & W1 & K1 & I1 & _).
  assert (E1 : w1 = u1) by (unfold w1; now rewrite R1).
  rewrite Hname in Hal.
  destruct (upload_file_stores image_decode secure_filename
              request2 file2 u1 Hm2 Hf2 Hal W1)
    as (d2 & u2 & R2 & F2 & _).
  assert (E2 : w2 = u2) by (unfold w2; now rewrite E1, R2).
  assert (Hpath : stored_path secure_filename (clock u1 (ticks u1))
                    (filename file2) = path).
  { unfold path, stored_path. rewrite K1, I1, <- Hname.
    now rewrite (same_second_stamp _ _ Hsec). }
  rewrite Hpath in F2. rewrite E1, E2, F2, F1.
  split; [apply lookup_insert_eq|]. split; [apply lookup_insert_eq|].
  apply insert_insert_eq.
Qed.

End HandlerClaims.

(** ** The theorems at sample inputs *)

Lemma analyze_image_rules_witness :
  files sample_world !! "static/uploads/leaf.png" = Some "green" /\
  sample_decode "green" = Ok [[Pixel 50 200 80]] /\
  analyze_image sample_decode "static/uploads/leaf.png" sample_world
  = (Ok 0, sample_world).
Proof.
  split; [vm_compute; reflexivity|]. split; [reflexivity|].
  apply (analyze_image_rules sample_decode "static/uploads/leaf.png"
           sample_world "green" [[Pixel 50 200 80]]);
    [vm_compute; reflexivity | reflexivity |].
  split; eexists; (split; [reflexivity | reflexivity]).
Defined.

Lemma analyze_image_swallows_errors_witness :
  fst (image_open sample_decode "static/uploads/missing.png" sample_world)
  = Raise "No such file or directory" /\
  exists (c : nat) (w' : world),
    analyze_image sample_decode "static/uploads/missing.png" sample_world
    = (Ok c, w') /\
    c = drawn_index (List.length DISEASE_CLASSES) sample_world /\
    0 <= c <= 7 /\
    c ∈ dict_keys DISEASE_CLASSES.
Proof.
  split; [vm_compute; reflexivity|].
  apply (analyze_image_swallows_errors sample_decode
           "static/uploads/missing.png" sample_world
           "No such file or directory").
  vm_compute; reflexivity.
Defined.

(** What the three sample worlds of the prediction stage yield. *)
Lemma predict_disease_constant_world :
  predict_disease sample_decode "leaf.png" constant_world
  = constant_world_run.
Proof. vm_compute. reflexivity. Qed.

Lemma predict_disease_top_world :
  predict_disease sample_decode "leaf.png" top_world = top_world_run.
Proof. vm_compute. reflexivity. Qed.

Lemma predict_disease_tie_world :
  predict_disease sample_decode "leaf.png" tie_world = tie_world_run.
Proof. vm_compute. reflexivity. Qed.

(** Against C2 as written.  When the draw of the primary confidence is
    the largest one, the primary confidence is the float 0.95 itself,
    not below it.  When the primary confidence comes out as 0.75 and an
    alternative is drawn with the largest value, the alternative's
    confidence is the float [0.75 - 0.2] itself, which is not below the
    exact difference either.  When the draw of the primary confidence
    is 0, the primary confidence is the float 0.7, which is below seven
    tenths. *)
Lemma predict_disease_confidences_counterexample :
  (exists (p : prediction) (all : list prediction) (w' : world),
     predict_disease sample_decode "leaf.png" top_world
     = (Ok (Success p all), w') /\
     confidence p = f64 (95 # 100)) /\
  (exists (p a : prediction) (all : list prediction) (w' : world),
     predict_disease sample_decode "leaf.png" tie_world
     = (Ok (Success p all), w') /\
     In a (alternatives (Success p all)) /\
     confidence p = 3 # 4 /\
     confidence a = fsub (confidence p) (f64 (2 # 10)) /\
     (confidence p - (2 # 10) < confidence a)%Q) /\
  (exists (p : prediction) (all : list prediction) (w' : world),
     predict_disease sample_decode "leaf.png" constant_world
     = (Ok (Success p all), w') /\
     confidence p = f64 (7 # 10) /\
     (confidence p < 7 # 10)%Q).
Proof.
  split; [|split].
  - rewrite predict_disease_top_world. unfold top_world_run.
    eexists _, _, _. split; [reflexivity|]. vm_compute. reflexivity.
  - rewrite predict_disease_tie_world. unfold tie_world_run.
    eexists _, _, _, _. split; [reflexivity|].
    split; [left; reflexivity|].
    repeat split; vm_compute; reflexivity.
  - rewrite predict_disease_constant_world. unfold constant_world_run.
    eexists _, _, _. split; [reflexivity|].
    split; vm_compute; reflexivity.
Qed.

(** Against C10 as written.  When the draw of the primary confidence is
    0, the primary confidence is the float 0.7 and the upper end of the
    interval of the alternatives, the float [0.7 - 0.2], is
    0.49999999999999994: below one half.  The exact difference is below
    one half as well. *)
Lemma alternative_interval_nonempty_counterexample :
  exists (p : prediction) (all : list prediction) (w' : world),
    predict_disease sample_decode "leaf.png" constant_world
    = (Ok (Success p all), w') /\
    confidence p = f64 (7 # 10) /\
    snd (alternative_interval (confidence p))
    = 9007199254740991 # 18014398509481984 /\
    (snd (alternative_interval (confidence p)) < 5 # 10)%Q /\
    (confidence p - (2 # 10) < 5 # 10)%Q.
Proof.
  rewrite predict_disease_constant_world. unfold constant_world_run.
  eexists _, _, _. split; [reflexivity|].
  repeat split; vm_compute; reflexivity.
Qed.

Lemma upload_validation_witness :
  method (sample_request "leaf.exe" "green") = POST /\
  request_files (sample_request "leaf.exe" "green") !! "file"
  = Some (FileStorage "leaf.exe" "green") /\
  (passes_validation (FileStorage "leaf.exe" "green") = true
   <-> spec_valid_filename "leaf.exe").
Proof.
  split; [reflexivity|]. split; [vm_compute; reflexivity|].
  apply (upload_validation sample_decode keep_filename
           (sample_request "leaf.exe" "green")
           (FileStorage "leaf.exe" "green") sample_world);
    [reflexivity | vm_compute; reflexivity].
Defined.

Lemma upload_without_file_witness :
  method empty_request = POST /\
  request_files empty_request !! "file" = None /\
  exists message,
    upload_file sample_decode keep_filename empty_request sample_world
    = (Ok (Redirect (url empty_request)), flashed message "error" sample_world)
    /\ files (flashed message "error" sample_world) = files sample_world
    /\ cursor (flashed message "error" sample_world) = cursor sample_world
    /\ stdout (flashed message "error" sample_world) = stdout sample_world.
Proof.
  split; [reflexivity|]. split; [vm_compute; reflexivity|].
  apply (upload_without_file sample_decode keep_filename
           empty_request sample_world);
    [reflexivity | left; vm_compute; reflexivity].
Defined.

Lemma repeated_upload_overwrites_witness :
  same_second (sample_clock 0) (sample_clock 2) /\
  allowed_file "leaf.png" = true /\
  files (snd (upload_file sample_decode keep_filename
                (sample_request "leaf.png" "second")
                (snd (upload_file sample_decode keep_filename
                        (sample_request "leaf.png" "first") sample_world))))
  !! stored_path keep_filename (sample_clock 0) "leaf.png"
  = Some "second".
Proof.
  split; [now repeat split|]. split; [reflexivity|].
  apply (repeated_upload_overwrites sample_decode keep_filename
           (sample_request "leaf.png" "first")
           (sample_request "leaf.png" "second")
           (FileStorage "leaf.png" "first") (FileStorage "leaf.png" "second")
           sample_world);
    try reflexivity; try (vm_compute; reflexivity).
  now repeat split.
Defined.

(** * Part IV: further properties of the code *)

(** ** [allowed_file] *)

Lemma lower_ascii_dot (c : ascii) :
  Ascii.eqb (lower_ascii c) "." = Ascii.eqb c ".".
Proof. destruct c as [[] [] [] [] [] [] [] []]; reflexivity. Qed.

Lemma lower_ascii_idem (c : ascii) : lower_ascii (lower_ascii c) = lower_ascii c.
Proof. destruct c as [[] [] [] [] [] [] [] []]; reflexivity. Qed.

Lemma lower_idem (s : string) : lower (lower s) = lower s.
Proof.
  induction s as [|c s IH]; simpl; [reflexivity|].
  now rewrite lower_ascii_idem, IH.
Qed.

Lemma contains_dot_lower (s : string) : contains_dot (lower s) = contains_dot s.
Proof.
  induction s as [|c s IH]; simpl; [reflexivity|].
  now rewrite lower_ascii_dot, IH.
Qed.

Lemma split_last_dot_lower (s : string) :
  split_last_dot (lower s)
  = match split_last_dot s with
    | Some (stem, ext) => Some (lower stem, lower ext)
    | None => None
    end.
Proof.
  induction s as [|c s IH]; simpl; [reflexivity|].
  rewrite IH. destruct (split_last_dot s) as [[stem ext]|]; [reflexivity|].
  rewrite lower_ascii_dot. now destruct (Ascii.eqb c ".").
Qed.

(** X1: the check does not depend on the case of any letter of the
    name. *)
Theorem allowed_file_lower (filename : string) :
  allowed_file (lower filename) = allowed_file filename.
Proof.
  unfold allowed_file, rsplit_dot.
  rewrite contains_dot_lower, split_last_dot_lower.
  destruct (split_last_dot filename) as [[stem ext]|]; [|reflexivity].
  change ([lower stem; lower ext] !! 1%nat) with (Some (lower ext)).
  change ([stem; ext] !! 1%nat) with (Some ext).
  cbv beta iota. now rewrite lower_idem.
Qed.

Lemma contains_dot_app_dot (stem ext : string) :
  contains_dot (stem ++ String "." ext) = true.
Proof. apply contains_dot_has_dot. now exists stem, ext. Qed.

Lemma allowed_file_app (stem ext : string) :
  contains_dot ext = false ->
  allowed_file (stem ++ String "." ext)
  = existsb (String.eqb (lower ext)) ALLOWED_EXTENSIONS.
Proof.
  intros Hext. unfold allowed_file, rsplit_dot.
  rewrite contains_dot_app_dot, (split_last_dot_app stem ext Hext).
  reflexivity.
Qed.

(** X2: only what follows the last dot counts: two names with the same
    last extension are both accepted or both rejected, whatever comes
    before (other extensions, path components). *)
Theorem allowed_file_stem_irrelevant (stem stem' ext : string) :
  contains_dot ext = false ->
  allowed_file (stem ++ String "." ext)
  = allowed_file (stem' ++ String "." ext).
Proof.
  intros Hext. now rewrite !allowed_file_app.
Qed.

(** X3: a name that ends with a dot is rejected. *)
Theorem allowed_file_trailing_dot (stem : string) :
  allowed_file (stem ++ ".") = false.
Proof. now rewrite (allowed_file_app stem EmptyString eq_refl). Qed.

(** ** [np.mean] and the analyzer *)

Lemma np_mean_cons (x : N) (xs : list N) :
  np_mean (x :: xs)
  = Some (inject_Z (Z.of_N (sumN (x :: xs)))
          / inject_Z (Z.of_nat (List.length (x :: xs))))%Q.
Proof. reflexivity. Qed.

Lemma Qlt_div_pos (t s n : Z) :
  (0 < n)%Z ->
  (inject_Z t < inject_Z s / inject_Z n)%Q <-> (t * n < s)%Z.
Proof.
  intros Hn.
  assert (Hq : (0 < inject_Z n)%Q)
    by (change (inject_Z 0 < inject_Z n)%Q; now rewrite <- Zlt_Qlt).
  rewrite Zlt_Qlt, inject_Z_mult. split.
  - intros H. apply (Qmult_lt_compat_r _ _ _ Hq) in H.
    rewrite (Qmult_comm (_ / _)), Qmult_div_r in H; [exact H|].
    intros E. rewrite E in Hq. discriminate.
  - intros H. now apply Qlt_shift_div_l.
Qed.

Lemma Qgt_div_pos (t s n : Z) :
  (0 < n)%Z ->
  (inject_Z s / inject_Z n < inject_Z t)%Q <-> (s < t * n)%Z.
Proof.
  intros Hn.
  assert (Hq : (0 < inject_Z n)%Q)
    by (change (inject_Z 0 < inject_Z n)%Q; now rewrite <- Zlt_Qlt).
  rewrite Zlt_Qlt, inject_Z_mult. split.
  - intros H. apply (Qmult_lt_compat_r _ _ _ Hq) in H.
    rewrite (Qmult_comm (_ / _)), Qmult_div_r in H; [exact H|].
    intros E. rewrite E in Hq. discriminate.
  - intros H. now apply Qlt_shift_div_r.
Qed.

Lemma np_mean_above (xs : list N) (t : Z) :
  above (np_mean xs) (inject_Z t)
  <-> xs <> [] /\ (t * Z.of_nat (List.length xs) < Z.of_N (sumN xs))%Z.
Proof.
  unfold above. destruct xs as [|x xs].
  - split; [intros (q & E & _); discriminate | intros [H _]; congruence].
  - rewrite np_mean_cons.
    assert (Hn : (0 < Z.of_nat (List.length (x :: xs)))%Z) by (simpl; lia).
    split.
    + intros (q & E & H). inversion E; subst q. split; [discriminate|].
      now apply Qlt_div_pos.
    + intros [_ H]. eexists. split; [reflexivity|]. now apply Qlt_div_pos.
Qed.

Lemma np_mean_below (xs : list N) (t : Z) :
  below (np_mean xs) (inject_Z t)
  <-> xs <> [] /\ (Z.of_N (sumN xs) < t * Z.of_nat (List.length xs))%Z.
Proof.
  unfold below. destruct xs as [|x xs].
  - split; [intros (q & E & _); discriminate | intros [H _]; congruence].
  - rewrite np_mean_cons.
    assert (Hn : (0 < Z.of_nat (List.length (x :: xs)))%Z) by (simpl; lia).
    split.
    + intros (q & E & H). inversion E; subst q. split; [discriminate|].
      now apply Qgt_div_pos.
    + intros [_ H]. eexists. split; [reflexivity|]. now apply Qgt_div_pos.
Qed.

(** X4: comparing a mean with an integer threshold is comparing the sum
    with the threshold times the number of entries; on an empty array
    (mean [nan]) both comparisons are false. *)
Theorem np_mean_threshold (xs : list N) (t : Z) :
  (above (np_mean xs) (inject_Z t)
   <-> xs <> [] /\ (t * Z.of_nat (List.length xs) < Z.of_N (sumN xs))%Z) /\
  (below (np_mean xs) (inject_Z t)
   <-> xs <> [] /\ (Z.of_N (sumN xs) < t * Z.of_nat (List.length xs))%Z).
Proof. split; [apply np_mean_above | apply np_mean_below]. Qed.

Lemma sumN_lower_bound (t : N) (xs : list N) :
  Forall (fun x => (t < x)%N) xs ->
  ((Z.of_N t + 1) * Z.of_nat (List.length xs) <= Z.of_N (sumN xs))%Z.
Proof.
  induction 1 as [|x xs Hx _ IH]; [simpl; lia|].
  change (sumN (x :: xs)) with (x + sumN xs)%N.
  change (List.length (x :: xs)) with (Datatypes.S (List.length xs)).
  lia.
Qed.

Lemma sumN_upper_bound (t : N) (xs : list N) :
  Forall (fun x => (x < t)%N) xs ->
  (Z.of_N (sumN xs) + Z.of_nat (List.length xs)
   <= Z.of_N t * Z.of_nat (List.length xs))%Z.
Proof.
  induction 1 as [|x xs Hx _ IH]; [simpl; lia|].
  change (sumN (x :: xs)) with (x + sumN xs)%N.
  change (List.length (x :: xs)) with (Datatypes.S (List.length xs)).
  lia.
Qed.

(** A channel all of whose values exceed [t] has a mean above [t]. *)
Lemma channel_above (c : pixel -> N) (img : image) (t : N) :
  List.concat img <> [] ->
  Forall (fun p => (t < c p)%N) (List.concat img) ->
  above (np_mean (channel c img)) (inject_Z (Z.of_N t)).
Proof.
  intros Hne Hall. apply np_mean_above. unfold channel. split.
  - destruct (List.concat img); [congruence | discriminate].
  - apply (proj2 (List.Forall_map c (fun x => (t < x)%N) (List.concat img)))
      in Hall.
    apply sumN_lower_bound in Hall.
    assert (0 < Z.of_nat (List.length (map c (List.concat img))))%Z.
    { destruct (List.concat img); [congruence | simpl; lia]. }
    lia.
Qed.

Lemma channel_below (c : pixel -> N) (img : image) (t : N) :
  List.concat img <> [] ->
  Forall (fun p => (c p < t)%N) (List.concat img) ->
  below (np_mean (channel c img)) (inject_Z (Z.of_N t)).
Proof.
  intros Hne Hall. apply np_mean_below. unfold channel. split.
  - destruct (List.concat img); [congruence | discriminate].
  - apply (proj2 (List.Forall_map c (fun x => (x < t)%N) (List.concat img)))
      in Hall.
    apply sumN_upper_bound in Hall.
    assert (0 < Z.of_nat (List.length (map c (List.concat img))))%Z.
    { destruct (List.concat img); [congruence | simpl; lia]. }
    lia.
Qed.

Lemma above_below_exclusive (x : float) (s t : Q) :
  (t <= s)%Q -> above x s -> below x t -> False.
Proof.
  intros Hts (q & E & H1) (q' & E' & H2).
  rewrite E in E'. inversion E'; subst q'. lra.
Qed.

Section AnalyzerMore.

Variable image_decode : string -> outcome image.

(** The analyzer on an image that decodes, as one conditional. *)
Lemma analyze_image_decoded image_path w bytes img :
  files w !! image_path = Some bytes -> image_decode bytes = Ok img ->
  analyze_image image_decode image_path w
  = (if float_gt (np_mean (channel green img)) 150
        && float_lt (np_mean (channel red img)) 100 then (Ok 0, w)
     else if float_gt (np_mean (channel red img)) 150
             && float_lt (np_mean (channel green img)) 100 then (Ok 1, w)
     else if float_lt (np_mean (channel blue img)) 50
             && float_gt (np_mean (channel red img)) 180 then (Ok 2, w)
     else (Ok (List.nth (drawn_index 6 w) fallback_classes 0), advance w)).
Proof.
  intros Hf Hd.
  pose proof (image_open_Ok image_decode _ _ _ _ Hf Hd) as Hopen.
  unfold analyze_image, try_except. rewrite (bind_Ok _ _ _ _ _ Hopen).
  destruct (float_gt _ 150 && float_lt _ 100); [reflexivity|].
  destruct (float_gt _ 150 && float_lt _ 100); [reflexivity|].
  destruct (float_lt _ 50 && float_gt _ 180); reflexivity.
Qed.

(** X5: a decodable, non-empty image every pixel of which has green
    above 150 and red below 100 is classified 0 (Healthy), and no random
    value is consumed. *)
Theorem analyze_image_green_pixels (image_path : string) (w : world)
    (bytes : string) (img : image) :
  files w !! image_path = Some bytes ->
  image_decode bytes = Ok img ->
  List.concat img <> [] ->
  Forall (fun p => (150 < green p)%N /\ (red p < 100)%N) (List.concat img) ->
  analyze_image image_decode image_path w = (Ok 0, w).
Proof.
  intros Hf Hd Hne Hall.
  rewrite (analyze_image_decoded _ _ _ _ Hf Hd).
  assert (H : float_gt (np_mean (channel green img)) 150
              && float_lt (np_mean (channel red img)) 100 = true).
  { apply andb_rule. split.
    - apply (channel_above green img 150 Hne).
      eapply Forall_impl; [exact Hall|]. now intros p [? ?].
    - apply (channel_below red img 100 Hne).
      eapply Forall_impl; [exact Hall|]. now intros p [? ?]. }
  now rewrite H.
Qed.

(** X6: a decodable, non-empty image every pixel of which has red above
    150 and green below 100 is classified 1 (Early Blight), whatever its
    blue channel, and no random value is consumed. *)
Theorem analyze_image_red_pixels (image_path : string) (w : world)
    (bytes : string) (img : image) :
  files w !! image_path = Some bytes ->
  image_decode bytes = Ok img ->
  List.concat img <> [] ->
  Forall (fun p => (150 < red p)%N /\ (green p < 100)%N) (List.concat img) ->
  analyze_image image_decode image_path w = (Ok 1, w).
Proof.
  intros Hf Hd Hne Hall.
  rewrite (analyze_image_decoded _ _ _ _ Hf Hd).
  assert (Hr : above (np_mean (channel red img)) 150).
  { apply (channel_above red img 150 Hne).
    eapply Forall_impl; [exact Hall|]. now intros p [? ?]. }
  assert (Hg : below (np_mean (channel green img)) 100).
  { apply (channel_below green img 100 Hne).
    eapply Forall_impl; [exact Hall|]. now intros p [? ?]. }
  assert (H1 : float_gt (np_mean (channel green img)) 150
               && float_lt (np_mean (channel red img)) 100 = false).
  { apply not_true_is_false. intros H. apply andb_rule in H as [Ha _].
    apply (above_below_exclusive _ 150 100 ltac:(lra) Ha Hg). }
  assert (H2 : float_gt (np_mean (channel red img)) 150
               && float_lt (np_mean (channel green img)) 100 = true)
    by (apply andb_rule; now split).
  now rewrite H1, H2.
Qed.

End AnalyzerMore.

Lemma fallback_not_blight (k : nat) :
  List.nth k fallback_classes 0 <> 1 /\ List.nth k fallback_classes 0 <> 2.
Proof.
  unfold fallback_classes.
  do 6 (destruct k as [|k]; [simpl; lia|]). destruct k; simpl; lia.
Qed.

Lemma above_weaken (x : float) (s t : Q) : (t <= s)%Q -> above x s -> above x t.
Proof. intros Hts (q & E & H). exists q. split; [exact E | lra]. Qed.

Section AnalyzerSoundness.

Variable image_decode : string -> outcome image.

(** X7: on an image that decodes, class 1 is returned only when mean red
    is above 150 and mean green below 100, and class 2 only when mean
    blue is below 50, mean red above 180 and mean green not below 100:
    the random fall-back never yields 1 or 2, and the second rule takes
    precedence over the third. *)
Theorem analyze_image_blight_sound (image_path : string) (w w' : world)
    (bytes : string) (img : image) (c : nat) :
  files w !! image_path = Some bytes ->
  image_decode bytes = Ok img ->
  analyze_image image_decode image_path w = (Ok c, w') ->
  (c = 1 -> above (np_mean (channel red img)) 150
            /\ below (np_mean (channel green img)) 100) /\
  (c = 2 -> below (np_mean (channel blue img)) 50
            /\ above (np_mean (channel red img)) 180
            /\ ~ below (np_mean (channel green img)) 100).
Proof.
  intros Hf Hd Hrun. rewrite (analyze_image_decoded _ _ _ _ _ Hf Hd) in Hrun.
  pose proof (andb_rule (np_mean (channel red img))
                (np_mean (channel green img)) 150 100) as R2.
  pose proof (andb_rule' (np_mean (channel blue img))
                (np_mean (channel red img)) 50 180) as R3.
  pose proof (fallback_not_blight (drawn_index 6 w)) as [N1 N2].
  destruct (float_gt (np_mean (channel green img)) 150
            && float_lt (np_mean (channel red img)) 100);
    [inversion Hrun; subst; split; discriminate|].
  destruct (float_gt (np_mean (channel red img)) 150
            && float_lt (np_mean (channel green img)) 100).
  - inversion Hrun; subst. split; [intros _; now apply R2 | discriminate].
  - destruct (float_lt (np_mean (channel blue img)) 50
              && float_gt (np_mean (channel red img)) 180).
    + inversion Hrun; subst. split; [discriminate|]. intros _.
      destruct (proj1 R3 eq_refl) as [Hb Hr].
      split; [exact Hb|]. split; [exact Hr|]. intros Hg.
      assert (false = true); [|discriminate].
      apply R2. split; [|exact Hg].
      apply (above_weaken _ 180 150); [lra | exact Hr].
    + inversion Hrun; subst. split; intros E; congruence.
Qed.

Lemma analyze_image_draws (image_path : string) (w : world) :
  cursor (snd (analyze_image image_decode image_path w))
  <= Datatypes.S (cursor w).
Proof.
  destruct (image_open image_decode image_path w) as [[img|e] w1] eqn:Hopen.
  - pose proof (image_open_world image_decode image_path w) as Hw.
    rewrite Hopen in Hw. simpl in Hw. subst w1.
    unfold analyze_image, try_except. rewrite (bind_Ok _ _ _ _ _ Hopen).
    destruct (float_gt _ 150 && float_lt _ 100); [simpl; lia|].
    destruct (float_gt _ 150 && float_lt _ 100); [simpl; lia|].
    destruct (float_lt _ 50 && float_gt _ 180); simpl; lia.
  - pose proof (image_open_world image_decode image_path w) as Hw.
    rewrite Hopen in Hw. simpl in Hw. subst w1.
    rewrite (analyze_image_on_failure _ _ _ _ Hopen). simpl. lia.
Qed.

(** X8: whatever the path and the world, [analyze_image] returns
    normally with a key of [DISEASE_CLASSES]; it consumes at most one
    random value and leaves the stored files, the flashed messages and
    the clock as they were. *)
Theorem analyze_image_never_raises (image_path : string) (w : world) :
  exists (c : nat) (w' : world),
    analyze_image image_decode image_path w = (Ok c, w') /\
    c ∈ dict_keys DISEASE_CLASSES /\
    cursor w <= cursor w' <= Datatypes.S (cursor w) /\
    files w' = files w /\ flashes w' = flashes w /\
    clock w' = clock w /\ ticks w' = ticks w.
Proof.
  destruct (analyze_image_total image_decode image_path w)
    as (c & w' & Hrun & Hc & F & _ & _ & C & K & I & L).
  pose proof (analyze_image_draws image_path w) as Hd. rewrite Hrun in Hd.
  exists c, w'. split; [exact Hrun|]. split.
  - do 8 (destruct c as [|c]; [simpl; set_solver|]). lia.
  - simpl in Hd. repeat split; try assumption.
Qed.

(** X9: every result of [predict_disease] lists exactly three
    predictions, the primary one first, and each entry's disease name is
    the label of its class id in [DISEASE_CLASSES]. *)
Theorem predict_disease_shape (image_path : string) (w : world) :
  exists (p a1 a2 : prediction) (w' : world),
    predict_disease image_decode image_path w
    = (Ok (Success p [p; a1; a2]), w') /\
    Forall (fun e => dict_lookup DISEASE_CLASSES (class_id e)
                     = Some (disease e))
           [p; a1; a2].
Proof.
  destruct (predict_disease_run image_decode image_path w)
    as (c & name & conf & alts & w' & Hrun & Hc & Hname & _ & Hlen & Hall & _).
  rewrite (other_classes_length c Hc) in Hlen.
  destruct alts as [|a1 [|a2 [|a3 alts]]]; try discriminate.
  exists (Prediction name conf c), a1, a2, w'. split; [exact Hrun|].
  inversion Hall as [|? ? (_ & H1 & _) Hall']; subst.
  inversion Hall' as [|? ? (_ & H2 & _) _]; subst.
  repeat constructor; assumption.
Qed.

(** X10: [predict_disease] only draws random values and prints: it
    consumes at least one random value and never changes the stored
    files, the flashed messages, the clock or the disk state. *)
Theorem predict_disease_frame (image_path : string) (w : world) :
  let w' := snd (predict_disease image_decode image_path w) in
  files w' = files w /\ flashes w' = flashes w /\
  clock w' = clock w /\ ticks w' = ticks w /\
  fs_writable w' = fs_writable w /\ tape w' = tape w /\
  cursor w < cursor w'.
Proof.
  destruct (predict_disease_run image_decode image_path w)
    as (c & name & conf & alts & w' & Hrun & _ & _ & _ & _ & _ & Hfr & Hcur).
  rewrite Hrun. simpl.
  destruct Hfr as (F & W & T & C & K & I & L). now repeat split.
Qed.

End AnalyzerSoundness.

(** ** The upload handler, all paths *)

Section HandlerMore.

Variable image_decode : string -> outcome image.
Variable secure_filename : string -> string.

(** On a disk that cannot be written the [try] block raises right after
    reading the clock. *)
Lemma store_and_predict_disk_failure request file w :
  fs_writable w = false ->
  store_and_predict image_decode secure_filename request file w
  = (Raise "Permission denied", snd (datetime_now w)).
Proof.
  intros Hw. unfold store_and_predict. rewrite bind_datetime_now. cbv zeta.
  apply bind_Raise. unfold os_makedirs.
  cbn [fs_writable snd datetime_now]. now rewrite Hw.
Qed.

(** The result page in full. *)
Lemma store_and_predict_result request file w :
  fs_writable w = true ->
  let unique := (strftime_stamp (clock w (ticks w)) ++ "_"
                 ++ secure_filename (filename file))%string in
  let path := os_path_join UPLOAD_FOLDER unique in
  exists (data : result_data) (w' : world),
    store_and_predict image_decode secure_filename request file w
    = (Ok (RenderTemplate "result.html" (Some data)), w') /\
    r_image_path data = ("/static/uploads/" ++ unique)%string /\
    (exists a1 a2, r_all_predictions data = [r_prediction data; a1; a2]) /\
    r_timestamp data
    = strftime_display (clock w (Datatypes.S (ticks w))) /\
    In (r_crop_type data) CROP_TYPES /\
    files w' = <[path := content file]> (files w) /\
    flashes w'
    = flashes w ++ [("Analysis completed successfully!", "success")].
Proof.
  intros Hw unique path. unfold store_and_predict.
  rewrite bind_datetime_now. cbv zeta. fold unique. fold path.
  clearbody unique. clearbody path.
  set (w1 := snd (datetime_now w)).
  assert (Hmk : os_makedirs UPLOAD_FOLDER w1 = (Ok tt, w1))
    by (unfold os_makedirs; cbn [fs_writable w1 snd datetime_now];
        destruct (fs_writable w); [reflexivity | discriminate]).
  rewrite (bind_Ok _ _ _ _ _ Hmk).
  set (w2 := World (<[path := content file]> (files w)) (fs_writable w)
                   (tape w) (cursor w) (clock w) (Datatypes.S (ticks w))
                   (stdout w) (flashes w)).
  assert (Hsave : file_save file path w1 = (Ok tt, w2))
    by (unfold file_save, w2; cbn [fs_writable w1 snd datetime_now];
        destruct (fs_writable w); [reflexivity | discriminate]).
  rewrite (bind_Ok _ _ _ _ _ Hsave).
  rewrite bind_print.
  set (w3 := snd (print _ w2)).
  destruct (predict_disease_run image_decode path w3)
    as (c & name & conf & alts & w4 & Hrun & Hc & _ & _ & Hlen & _ & Hfr & _).
  rewrite (other_classes_length c Hc) in Hlen.
  destruct alts as [|a1 [|a2 [|a3 alts]]]; try discriminate.
  rewrite (bind_Ok _ _ _ _ _ Hrun). cbv beta iota.
  rewrite bind_datetime_now. unfold CROP_TYPES.
  rewrite (bind_Ok _ _ _ _ _ (random_choice_run _ _ _)).
  rewrite bind_flash.
  destruct Hfr as (F & W & T & C & K & I & L).
  cbn [files fs_writable clock ticks cursor snd print w3 w2 stdout flashes]
    in F, K, I, L.
  eexists _, _. split; [reflexivity|].
  cbn [r_image_path r_all_predictions r_prediction r_timestamp r_crop_type
       files flashes flashed advance snd datetime_now].
  split; [reflexivity|]. split; [now exists a1, a2|].
  split; [now rewrite K, I|]. split.
  - apply List.nth_In. apply drawn_index_lt. simpl. lia.
  - split; [exact F | now rewrite L].
Qed.

End HandlerMore.

(** ** Stored paths *)

Lemma digit_not_slash (n : nat) : Ascii.eqb (digit n) "/" = false.
Proof.
  unfold digit. pose proof (Nat.mod_upper_bound n 10 ltac:(lia)) as H.
  remember (n mod 10) as m eqn:Em. clear Em.
  do 10 (destruct m as [|m]; [reflexivity|]). lia.
Qed.

Lemma stamp_head (t : datetime) :
  exists rest, strftime_stamp t = String (digit (year t / 1000)) rest.
Proof. unfold strftime_stamp, pad4. simpl. eexists. reflexivity. Qed.

Lemma os_path_join_digit (n : nat) (rest : string) :
  os_path_join UPLOAD_FOLDER (String (digit n) rest)
  = (UPLOAD_FOLDER ++ String (digit n) rest)%string.
Proof. unfold os_path_join. now rewrite digit_not_slash. Qed.

Lemma digit_inj (x y : nat) : digit x = digit y -> x mod 10 = y mod 10.
Proof.
  unfold digit. intros H. apply (f_equal nat_of_ascii) in H.
  pose proof (Nat.mod_upper_bound x 10 ltac:(lia)).
  pose proof (Nat.mod_upper_bound y 10 ltac:(lia)).
  rewrite !nat_ascii_embedding in H by lia. lia.
Qed.

Lemma decimal2_inj (a b : nat) :
  a < 100 -> b < 100 ->
  digit (a / 10) = digit (b / 10) -> digit a = digit b -> a = b.
Proof.
  intros Ha Hb H1 H0. apply digit_inj in H1, H0.
  pose proof (Nat.div_mod_eq a 10). pose proof (Nat.div_mod_eq b 10).
  assert (a / 10 < 10) by (apply Nat.Div0.div_lt_upper_bound; lia).
  assert (b / 10 < 10) by (apply Nat.Div0.div_lt_upper_bound; lia).
  rewrite (Nat.mod_small (a / 10)) in H1 by lia.
  rewrite (Nat.mod_small (b / 10)) in H1 by lia. lia.
Qed.

Lemma decimal4_inj (a b : nat) :
  a < 10 * 1000 -> b < 10 * 1000 ->
  digit (a / 1000) = digit (b / 1000) -> digit (a / 100) = digit (b / 100) ->
  digit (a / 10) = digit (b / 10) -> digit a = digit b -> a = b.
Proof.
  intros Ha Hb H3 H2 H1 H0. apply digit_inj in H3, H2, H1, H0.
  assert (a / 1000 < 10) by (apply Nat.Div0.div_lt_upper_bound; lia).
  assert (b / 1000 < 10) by (apply Nat.Div0.div_lt_upper_bound; lia).
  rewrite (Nat.mod_small (a / 1000)) in H3 by lia.
  rewrite (Nat.mod_small (b / 1000)) in H3 by lia.
  pose proof (Nat.div_mod_eq a 10). pose proof (Nat.div_mod_eq b 10).
  pose proof (Nat.div_mod_eq (a / 10) 10).
  pose proof (Nat.div_mod_eq (b / 10) 10).
  pose proof (Nat.div_mod_eq (a / 100) 10).
  pose proof (Nat.div_mod_eq (b / 100) 10).
  assert (E1 : a / 100 = a / 10 / 10) by (now rewrite Nat.Div0.div_div).
  assert (E2 : b / 100 = b / 10 / 10) by (now rewrite Nat.Div0.div_div).
  assert (E3 : a / 1000 = a / 100 / 10) by (now rewrite Nat.Div0.div_div).
  assert (E4 : b / 1000 = b / 100 / 10) by (now rewrite Nat.Div0.div_div).
  lia.
Qed.

(** The fifteen characters of a time stamp, before any suffix. *)
Lemma stamp_app_explicit (t : datetime) (rest : string) :
  (strftime_stamp t ++ rest)%string
  = String (digit (year t / 1000)) (String (digit (year t / 100))
      (String (digit (year t / 10)) (String (digit (year t))
      (String (digit (month t / 10)) (String (digit (month t))
      (String (digit (day t / 10)) (String (digit (day t))
      (String "_"
      (String (digit (hour t / 10)) (String (digit (hour t))
      (String (digit (minute t / 10)) (String (digit (minute t))
      (String (digit (second t / 10)) (String (digit (second t))
      rest)))))))))))))).
Proof. reflexivity. Qed.

Lemma string_app_inv_head (p a b : string) :
  (p ++ a)%string = (p ++ b)%string -> a = b.
Proof.
  induction p as [|c p IH]; intros H; [exact H|].
  apply IH. now inversion H.
Qed.

Section StoredPath.

Variable secure_filename : string -> string.

Lemma stored_path_unfold (now : datetime) (original : string) :
  stored_path secure_filename now original
  = (UPLOAD_FOLDER ++ strftime_stamp now ++ "_"
     ++ secure_filename original)%string.
Proof.
  unfold stored_path. destruct (stamp_head now) as [rest ->].
  apply (os_path_join_digit _ (rest ++ "_" ++ secure_filename original)).
Qed.

(** X11: the stored path always lies in the upload folder: because the
    stored name starts with a digit of the time stamp, [os.path.join]
    never replaces the folder, whatever [secure_filename] returns. *)
Theorem stored_path_in_upload_folder (now : datetime) (original : string) :
  stored_path secure_filename now original
  = (UPLOAD_FOLDER ++ strftime_stamp now ++ "_"
     ++ secure_filename original)%string.
Proof. apply stored_path_unfold. Qed.

Lemma stored_path_inj (t1 t2 : datetime) (original : string) :
  valid_datetime t1 -> valid_datetime t2 ->
  stored_path secure_filename t1 original
  = stored_path secure_filename t2 original ->
  same_second t1 t2.
Proof.
  intros (Y1 & M1 & D1 & H1 & I1 & S1 & _) (Y2 & M2 & D2 & H2 & I2 & S2 & _).
  rewrite !stored_path_unfold. intros E.
  apply string_app_inv_head in E. rewrite !stamp_app_explicit in E.
  injection E as Ey3 Ey2 Ey1 Ey0 Em1 Em0 Ed1 Ed0 Eh1 Eh0 Ei1 Ei0 Es1 Es0.
  unfold same_second.
  split; [apply decimal4_inj; (lia || assumption)|].
  repeat split; apply decimal2_inj; (lia || assumption).
Qed.

(** X12: two uploads of one file name are stored under the same path
    only if the two clock readings agree up to the second. *)
Theorem stored_path_same_second (t1 t2 : datetime) (original : string) :
  valid_datetime t1 -> valid_datetime t2 ->
  stored_path secure_filename t1 original
  = stored_path secure_filename t2 original ->
  same_second t1 t2.
Proof. apply stored_path_inj. Qed.

End StoredPath.

(** ** The outcomes of [upload_file] *)

Section HandlerOutcomes.

Variable image_decode : string -> outcome image.
Variable secure_filename : string -> string.

(** A POST whose part passes the checks, on a disk that cannot be
    written. *)
Lemma upload_file_disk_failure request file w :
  method request = POST ->
  request_files request !! "file" = Some file ->
  allowed_file (filename file) = true ->
  fs_writable w = false ->
  upload_file image_decode secure_filename request w
  = (Ok (Redirect (url request)),
     flashed ("Error processing file: " ++ "Permission denied") "error"
             (snd (datetime_now w))).
Proof.
  intros Hm Hf Ha Hw. unfold upload_file. rewrite Hm, Hf.
  pose proof (allowed_file_nonempty _ Ha) as Hne.
  apply String.eqb_neq in Hne. unfold file_truthy. rewrite Hne, Ha.
  cbn [negb andb].
  rewrite (try_except_Raise _ _ _ _ _
             (store_and_predict_disk_failure image_decode secure_filename
                request file w Hw)).
  apply flash_error_and_redirect_run.
Qed.

(** A POST whose part passes the checks, on a writable disk. *)
Lemma upload_file_result request file w :
  method request = POST ->
  request_files request !! "file" = Some file ->
  allowed_file (filename file) = true ->
  fs_writable w = true ->
  exists (data : result_data) (w' : world),
    upload_file image_decode secure_filename request w
    = (Ok (RenderTemplate "result.html" (Some data)), w') /\
    r_image_path data
    = ("/" ++ stored_path secure_filename (clock w (ticks w))
                (filename file))%string /\
    (exists a1 a2, r_all_predictions data = [r_prediction data; a1; a2]) /\
    r_timestamp data
    = strftime_display (clock w (Datatypes.S (ticks w))) /\
    In (r_crop_type data) CROP_TYPES /\
    files w'
    = <[stored_path secure_filename (clock w (ticks w)) (filename file)
        := content file]> (files w) /\
    flashes w'
    = flashes w ++ [("Analysis completed successfully!", "success")].
Proof.
  intros Hm Hf Ha Hw. unfold upload_file. rewrite Hm, Hf.
  pose proof (allowed_file_nonempty _ Ha) as Hne.
  apply String.eqb_neq in Hne. unfold file_truthy. rewrite Hne, Ha.
  cbn [negb andb].
  destruct (store_and_predict_result image_decode secure_filename
              request file w Hw)
    as (data & w' & Hrun & Hpath & Hall & Hts & Hcrop & Hfiles & Hfl).
  exists data, w'. rewrite (try_except_Ok _ _ _ _ _ Hrun).
  split; [reflexivity|]. split.
  - rewrite Hpath, stored_path_unfold. reflexivity.
  - now repeat split.
Qed.



(** X14: [upload_file] writes at most one file: either the stored files
    are unchanged, or the bytes of the uploaded part are put at the
    stored path and every other file is as before. *)
Theorem upload_file_files (request : request) (w : world) :
  let w' := snd (upload_file image_decode secure_filename request w) in
  files w' = files w \/
  exists file,
    request_files request !! "file" = Some file /\
    files w'
    = <[stored_path secure_filename (clock w (ticks w)) (filename file)
        := content file]> (files w).
Proof.
  destruct (method request) eqn:Hm.
  - left. unfold upload_file. now rewrite Hm.
  - destruct (request_files request !! "file") as [file|] eqn:Hf.
    + destruct (allowed_file (filename file)) eqn:Ha.
      * destruct (fs_writable w) eqn:Hw.
        -- destruct (upload_file_result request file w Hm Hf Ha Hw)
             as (data & w' & Hrun & _ & _ & _ & _ & Hfiles & _).
           right. exists file. rewrite Hrun. now split.
        -- left.
           now rewrite (upload_file_disk_failure request file w Hm Hf Ha Hw).
      * destruct (upload_file_rejects image_decode secure_filename
                    request file w Hm Hf Ha) as [message Hrun].
        left. now rewrite Hrun.
    + left. unfold upload_file. now rewrite Hm, Hf.
Qed.

(** X15: when the disk cannot be written, a part that passes the checks
    is answered by a redirect with one flashed error; the clock was read
    once, nothing is stored and no prediction is made (no random value
    is consumed, nothing is printed). *)
Theorem upload_file_storage_failure (request : request)
    (file : file_storage) (w : world) :
  method request = POST ->
  request_files request !! "file" = Some file ->
  allowed_file (filename file) = true ->
  fs_writable w = false ->
  exists (e : string) (w' : world),
    upload_file image_decode secure_filename request w
    = (Ok (Redirect (url request)), w') /\
    flashes w'
    = flashes w ++ [(("Error processing file: " ++ e)%string, "error")] /\
    files w' = files w /\ cursor w' = cursor w /\ stdout w' = stdout w /\
    ticks w' = Datatypes.S (ticks w).
Proof.
  intros Hm Hf Ha Hw.
  rewrite (upload_file_disk_failure request file w Hm Hf Ha Hw).
  eexists _, _. split; [reflexivity|]. now repeat split.
Qed.

(** X16: on a writable disk a part that passes the checks is answered by
    the result page: the image path given to the template is the stored
    path behind a slash, the stored file holds the uploaded bytes, the
    primary prediction heads a list of three, the time stamp shown is
    the second clock reading, the crop type is one of [CROP_TYPES], and
    one success message is flashed. *)
Theorem upload_file_success (request : request) (file : file_storage)
    (w : world) :
  method request = POST ->
  request_files request !! "file" = Some file ->
  allowed_file (filename file) = true ->
  fs_writable w = true ->
  exists (data : result_data) (w' : world),
    upload_file image_decode secure_filename request w
    = (Ok (RenderTemplate "result.html" (Some data)), w') /\
    r_image_path data
    = ("/" ++ stored_path secure_filename (clock w (ticks w))
                (filename file))%string /\
    files w' !! stored_path secure_filename (clock w (ticks w))
                  (filename file) = Some (content file) /\
    (exists a1 a2, r_all_predictions data = [r_prediction data; a1; a2]) /\
    r_timestamp data
    = strftime_display (clock w (Datatypes.S (ticks w))) /\
    In (r_crop_type data) CROP_TYPES /\
    flashes w'
    = flashes w ++ [("Analysis completed successfully!", "success")].
Proof.
  intros Hm Hf Ha Hw.
  destruct (upload_file_result request file w Hm Hf Ha Hw)
    as (data & w' & Hrun & Hpath & Hall & Hts & Hcrop & Hfiles & Hfl).
  exists data, w'. split; [exact Hrun|]. split; [exact Hpath|].
  split; [rewrite Hfiles; apply lookup_insert_eq|].
  now repeat split.
Qed.

End HandlerOutcomes.

Section RepeatedUploads.

Variable image_decode : string -> outcome image.
Variable secure_filename : string -> string.

(** X17: two uploads of the same file name whose clock readings are
    valid and fall in different seconds are stored under different
    paths, and after the second upload both files hold their own
    bytes. *)
Theorem repeated_upload_distinct_seconds (request1 request2 : request)
    (file1 file2 : file_storage) (w : world) :
  method request1 = POST -> method request2 = POST ->
  request_files request1 !! "file" = Some file1 ->
  request_files request2 !! "file" = Some file2 ->
  filename file1 = filename file2 ->
  allowed_file (filename file1) = true ->
  fs_writable w = true ->
  valid_datetime (clock w (ticks w)) ->
  valid_datetime (clock w (Datatypes.S (Datatypes.S (ticks w)))) ->
  ~ same_second (clock w (ticks w))
                (clock w (Datatypes.S (Datatypes.S (ticks w)))) ->
  let path1 :=
    stored_path secure_filename (clock w (ticks w)) (filename file1) in
  let path2 :=
    stored_path secure_filename
      (clock w (Datatypes.S (Datatypes.S (ticks w)))) (filename file2) in
  let w1 := snd (upload_file image_decode secure_filename request1 w) in
  let w2 := snd (upload_file image_decode secure_filename request2 w1) in
  path1 <> path2 /\
  files w2 !! path1 = Some (content file1) /\
  files w2 !! path2 = Some (content file2).
Proof.
  intros Hm1 Hm2 Hf1 Hf2 Hname Hal Hw V1 V2 Hsec path1 path2 w1 w2.
  destruct (upload_file_stores image_decode secure_filename
              request1 file1 w Hm1 Hf1 Hal Hw)
    as (d1 & u1 & R1 & F1 & W1 & K1 & I1 & _).
  assert (E1 : w1 = u1) by (unfold w1; now rewrite R1).
  pose proof Hal as Hal2. rewrite Hname in Hal2.
  destruct (upload_file_stores image_decode secure_filename
              request2 file2 u1 Hm2 Hf2 Hal2 W1)
    as (d2 & u2 & R2 & F2 & _).
  assert (E2 : w2 = u2) by (unfold w2; now rewrite E1, R2).
  rewrite K1, I1 in F2. fold path2 in F2. fold path1 in F1.
  assert (Hne : path1 <> path2).
  { unfold path1, path2. rewrite <- Hname. intros E.
    apply Hsec. exact (stored_path_inj secure_filename _ _ _ V1 V2 E). }
  split; [exact Hne|]. rewrite E2, F2, F1. split.
  - rewrite lookup_insert_ne by congruence. apply lookup_insert_eq.
  - apply lookup_insert_eq.
Qed.

End RepeatedUploads.

(** ** The further theorems at sample inputs *)

Lemma allowed_file_stem_irrelevant_witness :
  contains_dot "png" = false /\
  allowed_file ("shell.exe" ++ ".png") = allowed_file ("" ++ ".png").
Proof.
  split; [reflexivity|].
  apply (allowed_file_stem_irrelevant "shell.exe" "" "png"). reflexivity.
Defined.

Lemma analyze_image_green_pixels_witness :
  files sample_world !! "static/uploads/leaf.png" = Some "green" /\
  sample_decode "green" = Ok [[Pixel 50 200 80]] /\
  analyze_image sample_decode "static/uploads/leaf.png" sample_world
  = (Ok 0, sample_world).
Proof.
  split; [vm_compute; reflexivity|]. split; [reflexivity|].
  apply (analyze_image_green_pixels sample_decode "static/uploads/leaf.png"
           sample_world "green" [[Pixel 50 200 80]]);
    [vm_compute; reflexivity | reflexivity | discriminate |].
  repeat constructor.
Defined.

Lemma analyze_image_red_pixels_witness :
  files sample_world !! "static/uploads/leaf.png" = Some "green" /\
  red_decode "green" = Ok [[Pixel 200 50 80]] /\
  analyze_image red_decode "static/uploads/leaf.png" sample_world
  = (Ok 1, sample_world).
Proof.
  split; [vm_compute; reflexivity|]. split; [reflexivity|].
  apply (analyze_image_red_pixels red_decode "static/uploads/leaf.png"
           sample_world "green" [[Pixel 200 50 80]]);
    [vm_compute; reflexivity | reflexivity | discriminate |].
  repeat constructor.
Defined.

Lemma analyze_image_blight_sound_witness :
  files sample_world !! "static/uploads/leaf.png" = Some "green" /\
  red_decode "green" = Ok [[Pixel 200 50 80]] /\
  analyze_image red_decode "static/uploads/leaf.png" sample_world
  = (Ok 1, sample_world) /\
  above (np_mean (channel red [[Pixel 200 50 80]])) 150 /\
  below (np_mean (channel green [[Pixel 200 50 80]])) 100.
Proof.
  split; [vm_compute; reflexivity|]. split; [reflexivity|].
  split; [vm_compute; reflexivity|].
  apply (analyze_image_blight_sound red_decode "static/uploads/leaf.png"
           sample_world sample_world "green" [[Pixel 200 50 80]] 1);
    [vm_compute; reflexivity | reflexivity | vm_compute; reflexivity
     | reflexivity].
Defined.

Lemma stored_path_same_second_witness :
  valid_datetime (sample_clock 0) /\ valid_datetime (sample_clock 2) /\
  stored_path keep_filename (sample_clock 0) "leaf.png"
  = stored_path keep_filename (sample_clock 2) "leaf.png" /\
  same_second (sample_clock 0) (sample_clock 2).
Proof.
  assert (V0 : valid_datetime (sample_clock 0))
    by (unfold valid_datetime, sample_clock, ticking_clock;
        cbn [year month day hour minute second microsecond]; lia).
  assert (V2 : valid_datetime (sample_clock 2))
    by (unfold valid_datetime, sample_clock, ticking_clock;
        cbn [year month day hour minute second microsecond]; lia).
  split; [exact V0|]. split; [exact V2|]. split; [reflexivity|].
  apply (stored_path_same_second keep_filename (sample_clock 0)
           (sample_clock 2) "leaf.png" V0 V2).
  reflexivity.
Defined.

Lemma upload_file_storage_failure_witness :
  fs_writable readonly_world = false /\
  allowed_file "leaf.png" = true /\
  exists (e : string) (w' : world),
    upload_file sample_decode keep_filename
      (sample_request "leaf.png" "green") readonly_world
    = (Ok (Redirect (url (sample_request "leaf.png" "green"))), w') /\
    flashes w'
    = flashes readonly_world
      ++ [(("Error processing file: " ++ e)%string, "error")] /\
    files w' = files readonly_world /\
    cursor w' = cursor readonly_world /\
    stdout w' = stdout readonly_world /\
    ticks w' = Datatypes.S (ticks readonly_world).
Proof.
  split; [reflexivity|]. split; [reflexivity|].
  apply (upload_file_storage_failure sample_decode keep_filename
           (sample_request "leaf.png" "green")
           (FileStorage "leaf.png" "green") readonly_world);
    try reflexivity; vm_compute; reflexivity.
Defined.

Lemma upload_file_success_witness :
  fs_writable sample_world = true /\
  allowed_file "leaf.png" = true /\
  exists (data : result_data) (w' : world),
    upload_file sample_decode keep_filename
      (sample_request "leaf.png" "green") sample_world
    = (Ok (RenderTemplate "result.html" (Some data)), w') /\
    r_image_path data
    = ("/" ++ stored_path keep_filename (sample_clock 0) "leaf.png")%string.
Proof.
  split; [reflexivity|]. split; [reflexivity|].
  destruct (upload_file_success sample_decode keep_filename
              (sample_request "leaf.png" "green")
              (FileStorage "leaf.png" "green") sample_world)
    as (data & w' & Hrun & Hpath & _);
    try reflexivity; try (vm_compute; reflexivity).
  exists data, w'. split; [exact Hrun | exact Hpath].
Defined.

Lemma repeated_upload_distinct_seconds_witness :
  valid_datetime (ticking_clock 0) /\ valid_datetime (ticking_clock 2) /\
  ~ same_second (ticking_clock 0) (ticking_clock 2) /\
  files (snd (upload_file sample_decode keep_filename
                (sample_request "leaf.png" "second")
                (snd (upload_file sample_decode keep_filename
                        (sample_request "leaf.png" "first") ticking_world))))
  !! stored_path keep_filename (ticking_clock 0) "leaf.png"
  = Some "first".
Proof.
  assert (V0 : valid_datetime (ticking_clock 0))
    by (unfold valid_datetime, sample_clock, ticking_clock;
        cbn [year month day hour minute second microsecond]; lia).
  assert (V2 : valid_datetime (ticking_clock 2))
    by (unfold valid_datetime, sample_clock, ticking_clock;
        cbn [year month day hour minute second microsecond]; lia).
  assert (N : ~ same_second (ticking_clock 0) (ticking_clock 2))
    by (unfold same_second, ticking_clock;
        cbn [year month day hour minute second]; lia).
  split; [exact V0|]. split; [exact V2|]. split; [exact N|].
  apply (repeated_upload_distinct_seconds sample_decode keep_filename
           (sample_request "leaf.png" "first")
           (sample_request "leaf.png" "second")
           (FileStorage "leaf.png" "first") (FileStorage "leaf.png" "second")
           ticking_world);
    try reflexivity; try assumption; vm_compute; reflexivity.
Defined.
